(** * plurbot: the quiz bot of [src/bot.py]

    A shallow embedding of [generate_problem], of the three handlers [start],
    [problem] and [check_answer], and of the Python built-ins they call,
    followed by the properties of the session and score state machine.

    Modelling conventions.
    - A Python [str] is a [string]: the UTF-8 bytes of the text.  [strip] and
      [upper] are the ASCII parts of [str.strip] and [str.upper]; code points
      above 127 are neither whitespace nor letters here.
    - A value produced by [json.loads] is a [json] tree.  Objects keep the
      insertion order of a Python [dict].  Integers are unbounded; a number
      with a fraction or an exponent keeps its literal text.
    - The two module-level dictionaries are [gmap]s keyed by the user id.
    - A handler is a function from the state to the new state, the list of
      calls it made to its collaborators, and how it ended.  The telegram
      calls are taken to succeed; the completion service answers with the
      text given as [option string], [None] when the call (or reading
      [response.text]) raises.  The prompt is a constant and the logger is
      write-only: neither is part of the model.
    - The application hands the updates to the handlers one at a time, so a
      run of the bot is a list of triggers folded over the state. *)

From Stdlib Require Import Ascii.
From stdpp Require Import gmap strings list pretty.

Local Open Scope char_scope.

(** ** Python string built-ins *)

Definition code (c : ascii) : nat := nat_of_ascii c.

(** [lo <= ord(c) <= hi] *)
Definition between (lo hi : nat) (c : ascii) : bool :=
  Nat.leb lo (code c) && Nat.leb (code c) hi.

(** [str.isspace] on the ASCII range: TAB, LF, VT, FF, CR, FS, GS, RS, US and
    the space. *)
Definition is_space (c : ascii) : bool :=
  between 9 13 c || between 28 32 c.

Fixpoint lstrip (s : string) : string :=
  match s with
  | String c s' => if is_space c then lstrip s' else s
  | EmptyString => EmptyString
  end.

Fixpoint rstrip (s : string) : string :=
  match s with
  | EmptyString => EmptyString
  | String c s' =>
      match rstrip s' with
      | EmptyString => if is_space c then EmptyString else String c EmptyString
      | r => String c r
      end
  end.

(** [s.strip()] *)
Definition strip (s : string) : string := rstrip (lstrip s).

Definition upper_char (c : ascii) : ascii :=
  if between 97 122 c then ascii_of_nat (code c - 32) else c.

(** [s.upper()] *)
Fixpoint upper (s : string) : string :=
  match s with
  | EmptyString => EmptyString
  | String c s' => String (upper_char c) (upper s')
  end.

(** [s.replace(old, new)]: the occurrences of [old] are found from left to
    right and do not overlap.  [skip] counts the characters of a match that
    are still to be dropped. *)
Fixpoint replace_from (old new : string) (skip : nat) (s : string) : string :=
  match s with
  | EmptyString =>
      match old with EmptyString => new | _ => EmptyString end
  | String c s' =>
      match skip with
      | S k => replace_from old new k s'
      | O =>
          if String.prefix old s then
            new +:+ match String.length old with
                    | O => String c (replace_from old new 0 s')
                    | S k => replace_from old new k s'
                    end
          else String c (replace_from old new 0 s')
      end
  end.

Definition replace (old new s : string) : string := replace_from old new 0 s.

(** [sub in s] for two strings *)
Fixpoint str_contains (sub s : string) : bool :=
  String.prefix sub s ||
  match s with
  | EmptyString => false
  | String _ s' => str_contains sub s'
  end.

(** ** JSON values, as [json.loads] builds them *)

Set Warnings "-register-all".

Inductive json : Type :=
| JNull
| JBool (b : bool)
| JInt (n : Z)
| JFloat (lit : string)
| JStr (s : string)
| JArr (items : list json)
| JObj (fields : list (string * json)).

(** [d[k] = v] on a [dict]: an existing key keeps its place. *)
Fixpoint dict_set {V} (k : string) (v : V) (d : list (string * V)) : list (string * V) :=
  match d with
  | [] => [(k, v)]
  | (k', v') :: d' =>
      if String.eqb k k' then (k, v) :: d' else (k', v') :: dict_set k v d'
  end.

Fixpoint dict_get {V} (k : string) (d : list (string * V)) : option V :=
  match d with
  | [] => None
  | (k', v') :: d' => if String.eqb k k' then Some v' else dict_get k d'
  end.

(** ** [json.loads]: the scanner of CPython's [_json] module *)

Definition is_json_ws (c : ascii) : bool :=
  Ascii.eqb c " " || Ascii.eqb c "009" || Ascii.eqb c "010" || Ascii.eqb c "013".

Fixpoint skip_ws (s : string) : string :=
  match s with
  | String c s' => if is_json_ws c then skip_ws s' else s
  | EmptyString => EmptyString
  end.

Definition is_digit (c : ascii) : bool := between 48 57 c.

(** the longest prefix of digits, and what follows it *)
Fixpoint scan_digits (s : string) : string * string :=
  match s with
  | String c s' =>
      if is_digit c then let '(ds, r) := scan_digits s' in (String c ds, r)
      else (EmptyString, s)
  | EmptyString => (EmptyString, EmptyString)
  end.

Fixpoint Z_of_digits (acc : Z) (ds : string) : Z :=
  match ds with
  | EmptyString => acc
  | String c ds' => Z_of_digits (10 * acc + Z.of_nat (code c - 48)) ds'
  end.

(** [_match_number_unicode]: sign, integer part without a leading zero, then
    a fraction and an exponent when their digits are there. *)
Definition match_number (s : string) : option (json * string) :=
  let '(neg, s1) :=
    match s with
    | String c r => if Ascii.eqb c "-" then (true, r) else (false, s)
    | EmptyString => (false, s)
    end in
  match s1 with
  | EmptyString => None
  | String c r =>
      let int_part :=
        if Ascii.eqb c "0" then Some (String c EmptyString, r)
        else if is_digit c then
          let '(ds, r') := scan_digits r in Some (String c ds, r')
        else None in
      match int_part with
      | None => None
      | Some (ip, r1) =>
          let '(frac, r2) :=
            match r1 with
            | String dot (String d r') =>
                if Ascii.eqb dot "." && is_digit d then
                  let '(ds, r'') := scan_digits r' in
                  (String dot (String d ds), r'')
                else (EmptyString, r1)
            | _ => (EmptyString, r1)
            end in
          let '(exp, r3) :=
            match r2 with
            | String e r' =>
                if Ascii.eqb e "e" || Ascii.eqb e "E" then
                  let '(sign, r'') :=
                    match r' with
                    | String sg (String x y) =>
                        if Ascii.eqb sg "-" || Ascii.eqb sg "+"
                        then (String sg EmptyString, String x y)
                        else (EmptyString, r')
                    | _ => (EmptyString, r')
                    end in
                  match scan_digits r'' with
                  | (EmptyString, _) => (EmptyString, r2)
                  | (ds, r''') => (String e (sign +:+ ds), r''')
                  end
                else (EmptyString, r2)
            | EmptyString => (EmptyString, r2)
            end in
          match frac, exp with
          | EmptyString, EmptyString =>
              let n := Z_of_digits 0 ip in
              Some (JInt (if neg : bool then - n else n), r3)
          | _, _ =>
              Some (JFloat ((if neg : bool then "-" else "")%string +:+ ip +:+ frac +:+ exp), r3)
          end
      end
  end.

Definition hex_val (c : ascii) : option N :=
  if between 48 57 c then Some (N.of_nat (code c - 48))
  else if between 97 102 c then Some (N.of_nat (code c - 87))
  else if between 65 70 c then Some (N.of_nat (code c - 55))
  else None.

Definition hex4 (a b c d : ascii) : option N :=
  x ← hex_val a; y ← hex_val b; z ← hex_val c; w ← hex_val d;
  Some (((x * 16 + y) * 16 + z) * 16 + w)%N.

Definition byte (n : N) : ascii := ascii_of_N n.

(** the UTF-8 bytes of a code point (surrogates included, as three bytes) *)
Definition utf8 (cp : N) : string :=
  (if cp <? 128 then String (byte cp) EmptyString
   else if cp <? 2048 then
     String (byte (192 + cp / 64)) (String (byte (128 + cp mod 64)) EmptyString)
   else if cp <? 65536 then
     String (byte (224 + cp / 4096))
       (String (byte (128 + (cp / 64) mod 64))
          (String (byte (128 + cp mod 64)) EmptyString))
   else
     String (byte (240 + cp / 262144))
       (String (byte (128 + (cp / 4096) mod 64))
          (String (byte (128 + (cp / 64) mod 64))
             (String (byte (128 + cp mod 64)) EmptyString))))%N.

Definition is_high_surrogate (cp : N) : bool := ((55296 <=? cp) && (cp <=? 56319))%N.
Definition is_low_surrogate (cp : N) : bool := ((56320 <=? cp) && (cp <=? 57343))%N.
Definition join_surrogates (hi lo : N) : N :=
  (65536 + ((hi - 55296) * 1024 + (lo - 56320)))%N.

(** the character a one-letter escape stands for *)
Definition simple_escape (e : ascii) : option ascii :=
  if Ascii.eqb e "034" then Some "034"
  else if Ascii.eqb e "\" then Some "\"
  else if Ascii.eqb e "/" then Some "/"
  else if Ascii.eqb e "b" then Some "008"
  else if Ascii.eqb e "f" then Some "012"
  else if Ascii.eqb e "n" then Some "010"
  else if Ascii.eqb e "r" then Some "013"
  else if Ascii.eqb e "t" then Some "009"
  else None.

Definition prepend (p : string) (r : option (string * string)) : option (string * string) :=
  '(str, rest) ← r; Some (p +:+ str, rest).

(** [scanstring] in strict mode, from just after the opening quote: the
    decoded text and what follows the closing quote. *)
Fixpoint scanstring (s : string) : option (string * string) :=
  match s with
  | EmptyString => None
  | String c r =>
      if Ascii.eqb c "034" then Some (EmptyString, r)
      else if Ascii.eqb c "\" then
        match r with
        | EmptyString => None
        | String e r1 =>
            if Ascii.eqb e "u" then
              match r1 with
              | String h1 (String h2 (String h3 (String h4 r2))) =>
                  match hex4 h1 h2 h3 h4 with
                  | None => None
                  | Some cp =>
                      match r2 with
                      | String b (String u (String g1 (String g2 (String g3 (String g4 (String _ _ as r3)))))) =>
                          if is_high_surrogate cp && Ascii.eqb b "\" && Ascii.eqb u "u" then
                            match hex4 g1 g2 g3 g4 with
                            | None => None
                            | Some cp2 =>
                                if is_low_surrogate cp2
                                then prepend (utf8 (join_surrogates cp cp2)) (scanstring r3)
                                else prepend (utf8 cp) (scanstring r2)
                            end
                          else prepend (utf8 cp) (scanstring r2)
                      | _ => prepend (utf8 cp) (scanstring r2)
                      end
                  end
              | _ => None
              end
            else
              match simple_escape e with
              | Some ch => prepend (String ch EmptyString) (scanstring r1)
              | None => None
              end
        end
      else if between 0 31 c then None
      else prepend (String c EmptyString) (scanstring r)
  end.

Definition starts_with (p s : string) : bool := String.prefix p s.

(** [s[n:]] *)
Fixpoint drop_chars (n : nat) (s : string) : string :=
  match n, s with
  | S k, String _ s' => drop_chars k s'
  | _, _ => s
  end.

(** [scan_once], [_parse_object] and [_parse_array].  [fuel] bounds the
    number of nested calls; [json_loads] gives enough of it for any text
    (lemma [scan_once_fuel] below).  The interpreter's recursion limit and its
    limit on the digits of an integer are not modelled. *)
Fixpoint scan_once (fuel : nat) (s : string) : option (json * string) :=
  match fuel with
  | O => None
  | S fuel' =>
      match s with
      | EmptyString => None
      | String c rest =>
          if Ascii.eqb c "034" then
            '(str, r) ← scanstring rest; Some (JStr str, r)
          else if Ascii.eqb c "{" then
            match skip_ws rest with
            | EmptyString => None
            | String c1 r1 as body =>
                if Ascii.eqb c1 "}" then Some (JObj [], r1)
                else parse_members fuel' [] body
            end
          else if Ascii.eqb c "[" then
            match skip_ws rest with
            | EmptyString => None
            | String c1 r1 as body =>
                if Ascii.eqb c1 "]" then Some (JArr [], r1)
                else parse_elements fuel' [] body
            end
          else if starts_with "null" s then Some (JNull, drop_chars 4 s)
          else if starts_with "true" s then Some (JBool true, drop_chars 4 s)
          else if starts_with "false" s then Some (JBool false, drop_chars 5 s)
          else if starts_with "NaN" s then Some (JFloat "NaN", drop_chars 3 s)
          else if starts_with "Infinity" s then Some (JFloat "Infinity", drop_chars 8 s)
          else if starts_with "-Infinity" s then Some (JFloat "-Infinity", drop_chars 9 s)
          else match_number s
      end
  end
with parse_members (fuel : nat) (acc : list (string * json)) (s : string)
  : option (json * string) :=
  match fuel with
  | O => None
  | S fuel' =>
      match s with
      | EmptyString => None
      | String c rest =>
          if Ascii.eqb c "034" then
            '(key, r1) ← scanstring rest;
            match skip_ws r1 with
            | EmptyString => None
            | String c2 r2 =>
                if Ascii.eqb c2 ":" then
                  '(val, r3) ← scan_once fuel' (skip_ws r2);
                  let acc' := dict_set key val acc in
                  match skip_ws r3 with
                  | EmptyString => None
                  | String c4 r4 =>
                      if Ascii.eqb c4 "}" then Some (JObj acc', r4)
                      else if Ascii.eqb c4 "," then parse_members fuel' acc' (skip_ws r4)
                      else None
                  end
                else None
            end
          else None
      end
  end
with parse_elements (fuel : nat) (acc : list json) (s : string)
  : option (json * string) :=
  match fuel with
  | O => None
  | S fuel' =>
      '(val, r1) ← scan_once fuel' s;
      let acc' := acc ++ [val] in
      match skip_ws r1 with
      | EmptyString => None
      | String c2 r2 =>
          if Ascii.eqb c2 "]" then Some (JArr acc', r2)
          else if Ascii.eqb c2 "," then parse_elements fuel' acc' (skip_ws r2)
          else None
      end
  end.

(** [json.loads(s)]: one value between optional whitespace, nothing after.
    [None] stands for the [JSONDecodeError]. *)
Definition json_loads (s : string) : option json :=
  '(v, rest) ← scan_once (2 * String.length s + 1) (skip_ws s);
  match skip_ws rest with
  | EmptyString => Some v
  | _ => None
  end.

(** Writing JSON texts in this file: ['] stands for the double quote. *)
Definition json_text (s : string) : string :=
  (fix go s := match s with
               | EmptyString => EmptyString
               | String c s' => String (if Ascii.eqb c "'" then "034" else c) (go s')
               end) s.

Local Close Scope char_scope.

(** ** Python operations on a parsed value *)

Definition nl : string := String "010"%char EmptyString.

(** [key in data] for a string [key].  [None] is the [TypeError] raised on a
    value that is not a container. *)
Definition py_in (key : string) (data : json) : option bool :=
  match data with
  | JObj fields => Some (bool_decide (is_Some (dict_get key fields)))
  | JArr items =>
      Some (existsb (λ v, match v with JStr s => String.eqb s key | _ => false end) items)
  | JStr s => Some (str_contains key s)
  | JNull | JBool _ | JInt _ | JFloat _ => None
  end.

(** [all(key in data for key in keys)]: stops at the first [False], and at
    the first exception. *)
Fixpoint py_all_in (keys : list string) (data : json) : option bool :=
  match keys with
  | [] => Some true
  | key :: keys' =>
      b ← py_in key data;
      if b : bool then py_all_in keys' data else Some false
  end.

(** [data[key]] for a string [key].  [None] is the [KeyError] of a [dict]
    without the key, or the [TypeError] of any other value. *)
Definition py_getitem (data : json) (key : string) : option json :=
  match data with
  | JObj fields => dict_get key fields
  | _ => None
  end.

(** [v.items()].  [None] is the [AttributeError] of a value that is not a
    [dict]. *)
Definition py_items (v : json) : option (list (string * json)) :=
  match v with
  | JObj fields => Some fields
  | _ => None
  end.

(** [answer == v] where [answer] is a [str] *)
Definition py_eq_str (answer : string) (v : json) : bool :=
  match v with
  | JStr s => String.eqb answer s
  | _ => false
  end.

(** [text + v] where [text] is a [str].  [None] is the [TypeError] when [v]
    is not a [str]. *)
Definition py_concat (text : string) (v : json) : option string :=
  match v with
  | JStr s => Some (text +:+ s)
  | _ => None
  end.

(** ** generate_problem *)

Definition required_keys : list string :=
  ["question"; "choices"; "correct_answer"; "explanation"].

(** the two [replace] calls between the two [strip] calls *)
Definition clean (text : string) : string :=
  let text := strip text in
  strip (replace "```" "" (replace "```json" "" text)).

(** the dictionary of the [except] branch *)
Definition fallback_item : json :=
  JObj [("question", JStr "If 2x + 3 = 11, what is x?");
        ("choices", JObj [("A", JStr "3"); ("B", JStr "4"); ("C", JStr "5"); ("D", JStr "6")]);
        ("correct_answer", JStr "B");
        ("explanation", JStr "2x + 3 = 11 → 2x = 8 → x = 4")].

(** The body of the [try].  [response] is the text of the completion
    service, [None] when the call raises; a result of [None] is an exception
    reaching the [except]. *)
Definition try_generate (response : option string) : option json :=
  text ← response;
  data ← json_loads (clean text);
  ok ← py_all_in required_keys data;
  if ok : bool then Some data else None.

Definition generate_problem (response : option string) : json :=
  match try_generate response with
  | Some data => data
  | None => fallback_item
  end.

(** ** The stores and the handlers *)

(** a value of [user_scores]: the dictionary with the keys [correct] and
    [total] *)
Record Score := mkScore { correct : Z; total : Z }.

Record State := mkState {
  user_sessions : gmap Z json;
  user_scores : gmap Z Score
}.

Definition initial : State := mkState ∅ ∅.

(** what a handler reads of the incoming [Update] *)
Record Message := mkMessage { text : option string }.

Record Update := mkUpdate {
  message : option Message;
  effective_user : option Z      (* [update.effective_user.id] *)
}.

(** the calls a handler makes to its collaborators *)
Inductive call :=
| SendTyping                     (* [chat.send_action] *)
| GenerateContent                (* the completion service, in [generate_problem] *)
| ReplyText (reply : string).    (* [message.reply_text] *)

(** how a handler ends: it returns, or an exception leaves it *)
Inductive ending := Returned | Raised.

Definition welcome : string :=
  "Welcome to SAT Math Bot 🚀" +:+ nl +:+ nl +:+
  "Type /problem to get a new SAT-style question.".

Definition conflict_reply : string := "You already have a question. Answer it first!".
Definition format_reply : string := "Please reply with A, B, C, or D.".
Definition instruction : string := "📝 Reply with A, B, C, or D.".

(** [text.strip().upper()] *)
Definition normalize (t : string) : string := upper (strip t).

Definition letters : list string := ["A"; "B"; "C"; "D"].

Definition start (upd : Update) (st : State) : State * list call * ending :=
  match message upd with
  | None => (st, [], Returned)
  | Some _ => (st, [ReplyText welcome], Returned)
  end.

(** ** Notions of the specification *)

Definition is_text (v : json) : bool :=
  match v with JStr _ => true | _ => false end.

(** The QuizItem of the specification's data model: the four entries are
    there, question and explanation are texts that are not empty, the
    choices are texts under exactly the labels A, B, C, D, and the correct
    answer is one of these labels and a key of the choices. *)
Definition well_formed (data : json) : bool :=
  match data with
  | JObj fields =>
      match dict_get "question" fields, dict_get "choices" fields,
            dict_get "correct_answer" fields, dict_get "explanation" fields with
      | Some (JStr q), Some (JObj cs), Some (JStr a), Some (JStr e) =>
          negb (String.eqb q EmptyString) && negb (String.eqb e EmptyString)
          && bool_decide (cs.*1 ≡ₚ letters) && forallb (λ kv, is_text kv.2) cs
          && bool_decide (a ∈ letters) && bool_decide (is_Some (dict_get a cs))
      | _, _, _, _ => false
      end
  | _ => false
  end.

(** an upper-case single letter, as a stored [correct_answer] *)
Definition upper_letter (v : json) : Prop :=
  ∃ c, v = JStr (String c EmptyString) ∧ between 65 90 c = true.

(** the record a user is shown to have: [{0,0}] while there is none *)
Definition read (user_id : Z) (st : State) : Score :=
  default (mkScore 0 0) (user_scores st !! user_id).

(** [correct <= total], both counted from zero, for every record *)
Definition scores_ok (st : State) : Prop :=
  ∀ user_id r, user_scores st !! user_id = Some r → (0 ≤ correct r ≤ total r)%Z.

(** [c in s] for a character *)
Fixpoint has_char (c : ascii) (s : string) : bool :=
  match s with
  | EmptyString => false
  | String x s' => Ascii.eqb x c || has_char c s'
  end.

(** [s] is made of whitespace only *)
Fixpoint all_space (s : string) : bool :=
  match s with
  | EmptyString => true
  | String c s' => is_space c && all_space s'
  end.

Abbreviation backtick := ("`"%char) (only parsing).


(** the line of one choice *)
Definition choice_line (kv : string * string) : string :=
  kv.1 +:+ ") " +:+ kv.2 +:+ nl.

Definition choice_lines (choices : list (string * string)) : string :=
  foldr (λ kv rest, choice_line kv +:+ rest) EmptyString choices.

(** The question reply for the listed choices: the question, a blank line,
    the choices in the order of the list, a blank line, the instruction. *)
Definition layout (question : string) (choices : list (string * string)) : string :=
  question +:+ nl +:+ nl +:+ choice_lines choices +:+ nl +:+ instruction.

(** The question reply of the specification: the choices in the order of
    their labels, A, B, C, D, wherever they stand in the mapping. *)
Definition spec_layout (question : string) (choices : list (string * string)) : option string :=
  a ← dict_get "A" choices;
  b ← dict_get "B" choices;
  c ← dict_get "C" choices;
  d ← dict_get "D" choices;
  Some (layout question [("A", a); ("B", b); ("C", c); ("D", d)]).

(** choices as they are in a parsed item: each text a JSON string *)
Definition as_json (choices : list (string * string)) : list (string * json) :=
  (λ kv, (kv.1, JStr kv.2)) <$> choices.

(** [ScoreTracker.record] of the specification: one more answer counted,
    and one more correct answer when [was_correct]. *)
Definition spec_record (was_correct : bool) (r : Score) : Score :=
  mkScore (correct r + (if was_correct then 1 else 0)) (total r + 1).

(** an update carrying a text from a user *)
Definition text_from (user_id : Z) (t : string) : Update :=
  mkUpdate (Some (mkMessage (Some t))) (Some user_id).

(** a printer to run the handlers with, where the choice does not matter *)
Definition no_str (v : json) : string := "?".

(** a response with the four keys, no choices and an answer that is no label *)
Definition keys_only_response : string :=
  json_text "{'question':'q','choices':{},'correct_answer':'Z','explanation':'e'}".

(** a response with the choice B listed before the choice A *)
Definition b_first_response : string :=
  json_text "{'question':'2 + 2 = ?','choices':{'B':'4','A':'3','C':'5','D':'6'},'correct_answer':'B','explanation':'count'}".



(** the same item with its answer in lower case *)
Definition lower_item : json :=
  JObj [("question", JStr "2 + 2 = ?");
        ("choices", JObj [("A", JStr "3"); ("B", JStr "4"); ("C", JStr "5"); ("D", JStr "6")]);
        ("correct_answer", JStr "b");
        ("explanation", JStr "count")].

(** user 7 has [lower_item] open *)
Definition sample_lower : State := mkState {[ 7%Z := lower_item ]} ∅.

(** a response that is a JSON string naming the four keys *)
Definition keys_in_a_string : string :=
  json_text "'question choices correct_answer explanation'".

(** user 7 has the fallback question open and no score yet *)
Definition sample_open : State := mkState {[ 7%Z := fallback_item ]} ∅.

(** ** Configuration, lines 21 to 36 *)

(** [os.getenv(name)], on the environment [load_dotenv] leaves *)
Definition getenv (environ : gmap string string) (name : string) : option string :=
  environ !! name.

(** [not v] for a value that is [None] or a [str] *)
Definition py_not (v : option string) : bool :=
  match v with
  | None | Some EmptyString => true
  | Some (String _ _) => false
  end.

(** how the module-level code ends: the two secrets are set, or the
    [ValueError] that stops the process *)
Inductive startup :=
| Configured (telegram_token gemini_api_key : string)
| ValueError (reason : string).

Definition configure (environ : gmap string string) : startup :=
  let TELEGRAM_TOKEN := getenv environ "TELEGRAM_TOKEN" in
  let GEMINI_API_KEY := getenv environ "GEMINI_API_KEY" in
  if py_not TELEGRAM_TOKEN then ValueError "Missing TELEGRAM_TOKEN"
  else if py_not GEMINI_API_KEY then ValueError "Missing GEMINI_API_KEY"
  else Configured (default EmptyString TELEGRAM_TOKEN) (default EmptyString GEMINI_API_KEY).

(** ** More notions for the statements *)


(** an item with the four keys whose explanation is a number *)
Definition unexplained_item : json :=
  JObj [("question", JStr "2 + 2 = ?");
        ("choices", JObj [("A", JStr "3"); ("B", JStr "4"); ("C", JStr "5"); ("D", JStr "6")]);
        ("correct_answer", JStr "B");
        ("explanation", JInt 4)].

(** user 7 has [unexplained_item] open *)
Definition sample_unexplained : State := mkState {[ 7%Z := unexplained_item ]} ∅.

(** user 7 has a text open that names the four keys *)
Definition sample_stuck : State :=
  mkState {[ 7%Z := JStr "question choices correct_answer explanation" ]} ∅.

Section Handlers.

(** What [str] gives for a float, a list or a dict inside an f-string is
    not modelled: the handlers are stated for any such function. *)
Variable str_other : json → string.

(** [f"{v}"] *)
Definition py_str (v : json) : string :=
  match v with
  | JStr s => s
  | JNull => "None"
  | JBool true => "True"
  | JBool false => "False"
  | JInt n => pretty n
  | JFloat _ | JArr _ | JObj _ => str_other v
  end.

(** the loop over [choices.items()] *)
Definition add_choice (formatted : string) (kv : string * json) : string :=
  formatted +:+ kv.1 +:+ ") " +:+ py_str kv.2 +:+ nl.

(** Lines 153 to 160 of [problem]: [None] when one of them raises. *)
Definition format_question (data : json) : option string :=
  question_text ← py_getitem data "question";
  choices ← py_getitem data "choices";
  items ← py_items choices;
  let formatted := py_str question_text +:+ nl +:+ nl in
  let formatted := fold_left add_choice items formatted in
  Some (formatted +:+ nl +:+ instruction).

(** [problem]: [response] is what the completion service answers if it is
    called. *)
Definition problem (upd : Update) (response : option string) (st : State)
  : State * list call * ending :=
  match message upd, effective_user upd with
  | Some _, Some user_id =>
      if bool_decide (is_Some (user_sessions st !! user_id)) then
        (st, [ReplyText conflict_reply], Returned)
      else
        let data := generate_problem response in
        let st' := mkState (<[user_id := data]> (user_sessions st)) (user_scores st) in
        match format_question data with
        | Some formatted =>
            (st', [SendTyping; GenerateContent; ReplyText formatted], Returned)
        | None => (st', [SendTyping; GenerateContent], Raised)
        end
  | _, _ => (st, [], Returned)
  end.

Definition add_total (r : Score) : Score := mkScore (correct r) (total r + 1).
Definition add_correct (r : Score) : Score := mkScore (correct r + 1) (total r).

(** [f"{score['correct']}/{score['total']}"] *)
Definition tally (r : Score) : string := pretty (correct r) +:+ "/" +:+ pretty (total r).

Definition check_answer (upd : Update) (st : State) : State * list call * ending :=
  match message upd, effective_user upd with
  | Some msg, Some user_id =>
      match text msg with
      | None => (st, [], Returned)
      | Some t =>
          let user_answer := normalize t in
          match user_sessions st !! user_id with
          | None => (st, [], Returned)
          | Some data =>
              if negb (bool_decide (user_answer ∈ letters)) then
                (st, [ReplyText format_reply], Returned)
              else
                match py_getitem data "correct_answer" with
                | None => (st, [], Raised)
                | Some correct_answer =>
                    let scores :=
                      match user_scores st !! user_id with
                      | Some _ => user_scores st
                      | None => <[user_id := mkScore 0 0]> (user_scores st)
                      end in
                    let scores := alter add_total user_id scores in
                    let '(scores, reply) :=
                      if py_eq_str user_answer correct_answer then
                        (alter add_correct user_id scores,
                         "✅ Correct!" +:+ nl +:+ nl)
                      else
                        (scores,
                         "❌ Incorrect." +:+ nl +:+ "Correct answer: "
                           +:+ py_str correct_answer +:+ nl +:+ nl) in
                    match py_getitem data "explanation" ≫= py_concat ("Explanation:" +:+ nl) with
                    | None => (mkState (user_sessions st) scores, [], Raised)
                    | Some explained =>
                        let reply := reply +:+ explained in
                        match scores !! user_id with
                        | None => (mkState (user_sessions st) scores, [], Raised)
                        | Some score =>
                            let reply :=
                              reply +:+ nl +:+ nl +:+ "📊 Your Score: " +:+ tally score in
                            (mkState (delete user_id (user_sessions st)) scores,
                             [ReplyText reply], Returned)
                        end
                    end
                end
          end
      end
  | _, _ => (st, [], Returned)
  end.

(** ** What a graded answer leads to, in closed form *)

Definition verdict (was_correct : bool) (correct_answer : json) : string :=
  if was_correct then "✅ Correct!" +:+ nl +:+ nl
  else "❌ Incorrect." +:+ nl +:+ "Correct answer: " +:+ py_str correct_answer +:+ nl +:+ nl.

(** The answer of [user_id] was compared with [correct_answer] and found
    [was_correct]: the score is recorded; then the reply is sent and the
    question closed, unless the explanation is not a text. *)
Definition graded_outcome (was_correct : bool) (user_id : Z) (data correct_answer : json)
  (st : State) : State * list call * ending :=
  let score := spec_record was_correct (read user_id st) in
  let scores := <[user_id := score]> (user_scores st) in
  match py_getitem data "explanation" ≫= py_concat ("Explanation:" +:+ nl) with
  | None => (mkState (user_sessions st) scores, [], Raised)
  | Some explained =>
      (mkState (delete user_id (user_sessions st)) scores,
       [ReplyText ((verdict was_correct correct_answer +:+ explained) +:+ nl +:+ nl
                   +:+ "📊 Your Score: " +:+ tally score)],
       Returned)
  end.

(** ** Sequences of triggers *)

Inductive trigger :=
| OnStart (upd : Update)
| OnProblem (upd : Update) (response : option string)
| OnText (upd : Update).

Definition handle (st : State) (tr : trigger) : State * list call * ending :=
  match tr with
  | OnStart upd => start upd st
  | OnProblem upd response => problem upd response st
  | OnText upd => check_answer upd st
  end.

Definition step (st : State) (tr : trigger) : State := (handle st tr).1.1.

Definition run (st : State) (trs : list trigger) : State := fold_left step trs st.

(** the user a trigger comes from *)
Definition sender (tr : trigger) : option Z :=
  match tr with
  | OnStart upd | OnProblem upd _ | OnText upd => effective_user upd
  end.

(** what the stores hold for one user: the open question and the record *)
Definition view (user_id : Z) (st : State) : option json * option Score :=
  (user_sessions st !! user_id, user_scores st !! user_id).

(** a [/problem] that reaches the handler body for this user *)
Definition asks (user_id : Z) (tr : trigger) : bool :=
  match tr with
  | OnProblem upd _ =>
      bool_decide (is_Some (message upd)) && bool_decide (effective_user upd = Some user_id)
  | _ => false
  end.

(** the value has a text under [explanation] *)
Definition explained (data : json) : bool :=
  match py_getitem data "explanation" with
  | Some (JStr _) => true
  | _ => false
  end.



(** every stored value passed the key check of [generate_problem] *)
Definition sessions_checked (st : State) : Prop :=
  ∀ user_id data,
    user_sessions st !! user_id = Some data → py_all_in required_keys data = Some true.

(** * Properties *)

Lemma run_app st trs1 trs2 : run st (trs1 ++ trs2) = run (run st trs1) trs2.
Proof. apply fold_left_app. Qed.

Lemma run_replicate_fixed st tr n : step st tr = st → run st (replicate n tr) = st.
Proof.
  intros Hfix. induction n as [|n IH]; [done|].
  cbn [replicate]. unfold run in *. cbn [fold_left]. by rewrite Hfix.
Qed.

(** C3. A user who has an open question and asks for a new one gets the
    conflict reply and nothing else happens: the state (stored item,
    sessions, scores) is the same and the completion service is not
    called.  In particular the second of two requests in a row is
    refused. *)
Theorem problem_refused_while_open upd msg user_id item st response :
  message upd = Some msg →
  effective_user upd = Some user_id →
  user_sessions st !! user_id = Some item →
  problem upd response st = (st, [ReplyText conflict_reply], Returned) ∧
  ∀ st0 r1 r2,
    handle (step st0 (OnProblem upd r1)) (OnProblem upd r2)
    = (step st0 (OnProblem upd r1), [ReplyText conflict_reply], Returned).
Proof.
  intros Hmsg Huser Hopen. split.
  - unfold problem. rewrite Hmsg, Huser, Hopen.
    by rewrite bool_decide_eq_true_2.
  - intros st0 r1 r2.
    assert (is_Some (user_sessions (step st0 (OnProblem upd r1)) !! user_id)) as Hsome.
    { unfold step, handle, problem.
      rewrite Hmsg, Huser. case_bool_decide as Hdec; [done|].
      destruct (format_question _); cbn; rewrite lookup_insert_eq; eauto. }
    cbn [handle]. unfold problem at 1.
    rewrite Hmsg, Huser. by rewrite (bool_decide_eq_true_2 _ Hsome).
Qed.

(** C9. A text from a user without an open question does nothing: no
    reply, same sessions, same scores. *)
Theorem answer_while_idle upd user_id st :
  effective_user upd = Some user_id →
  user_sessions st !! user_id = None →
  check_answer upd st = (st, [], Returned).
Proof.
  intros Huser Hidle. unfold check_answer.
  destruct (message upd) as [msg|]; [|done].
  rewrite Huser. destruct (text msg); [|done]. by rewrite Hidle.
Qed.

(** C5. With an open question, a text that does not normalize to A, B, C
    or D gets the format reminder and changes nothing, however often it is
    repeated. *)
Theorem malformed_answer_changes_nothing upd msg t user_id item st n :
  message upd = Some msg →
  text msg = Some t →
  effective_user upd = Some user_id →
  user_sessions st !! user_id = Some item →
  normalize t ∉ letters →
  check_answer upd st = (st, [ReplyText format_reply], Returned) ∧
  run st (replicate n (OnText upd)) = st.
Proof.
  intros Hmsg Htext Huser Hopen Hbad.
  assert (check_answer upd st = (st, [ReplyText format_reply], Returned)) as Hone.
  { unfold check_answer. rewrite Hmsg, Huser, Htext, Hopen.
    by rewrite bool_decide_eq_false_2. }
  split; [done|].
  apply run_replicate_fixed. unfold step. cbn [handle].
  by rewrite Hone.
Qed.


(** *** The fuel of the scanner *)

Lemma skip_ws_length s : String.length (skip_ws s) ≤ String.length s.
Proof.
  induction s as [|c s IH]; [done|]. cbn. destruct (is_json_ws c); cbn; lia.
Qed.

Lemma scan_digits_length s ds r :
  scan_digits s = (ds, r) → String.length r ≤ String.length s.
Proof.
  revert ds r. induction s as [|c s IH]; intros ds r; cbn.
  - intros [= <- <-]. done.
  - destruct (is_digit c).
    + destruct (scan_digits s) as [ds' r'] eqn:Hs. intros [= <- <-].
      specialize (IH _ _ eq_refl). lia.
    + intros [= <- <-]. cbn. lia.
Qed.

Lemma match_number_length s v r :
  match_number s = Some (v, r) → String.length r < String.length s.
Proof.
  unfold match_number. intros H.
  repeat (case_match; simplify_eq/=);
    repeat match goal with
           | H : scan_digits _ = _ |- _ => apply scan_digits_length in H
           end; cbn in *; lia.
Qed.

Lemma prepend_Some p res str r :
  prepend p res = Some (str, r) → ∃ str', res = Some (str', r).
Proof. destruct res as [[str' r']|]; cbn; [|done]. intros [= <- <-]. eauto. Qed.

Lemma scanstring_length s str r :
  scanstring s = Some (str, r) → String.length r < String.length s.
Proof.
  remember (String.length s) as n eqn:Hn. revert s str r Hn.
  induction n as [n IH] using lt_wf_ind. intros s str r -> Hscan.
  assert (∀ p s' str' r', String.length s' < String.length s →
                        prepend p (scanstring s') = Some (str', r') →
                        String.length r' < String.length s') as IH'.
  { intros p s' str' r' Hlt [? H]%prepend_Some. by apply (IH _ Hlt) in H. }
  clear IH. destruct s as [|c s1]; [done|]. cbn [scanstring] in Hscan.
  cbn [String.length] in *.
  destruct (Ascii.eqb c "034"); [injection Hscan as <- <-; lia|].
  destruct (Ascii.eqb c "\"%char).
  - destruct s1 as [|e r1]; [done|]. cbn [String.length] in *.
    destruct (Ascii.eqb e "u").
    + destruct r1 as [|h1 [|h2 [|h3 [|h4 r2]]]]; try done.
      cbn [String.length] in *.
      destruct (hex4 h1 h2 h3 h4) as [cp|]; [|done].
      assert (String.length r < String.length r2 →
              String.length r < S (S (S (S (S (S (String.length r2))))))) as Hok by lia.
      destruct r2 as [|b [|u [|g1 [|g2 [|g3 [|g4 [|x r3]]]]]]];
        try (apply IH' in Hscan; cbn [String.length] in *; lia).
      destruct (is_high_surrogate cp && Ascii.eqb b "\"%char && Ascii.eqb u "u");
        [|apply IH' in Hscan; cbn [String.length] in *; lia].
      destruct (hex4 g1 g2 g3 g4) as [cp2|]; [|done].
      destruct (is_low_surrogate cp2);
        apply IH' in Hscan; cbn [String.length] in *; lia.
    + destruct (simple_escape e); [|done].
      apply IH' in Hscan; cbn [String.length] in *; lia.
  - destruct (between 0 31 c); [done|].
    apply IH' in Hscan; cbn [String.length] in *; lia.
Qed.

Lemma drop_chars_length n s : String.length (drop_chars n s) ≤ String.length s.
Proof.
  revert s. induction n as [|n IH]; intros [|c s]; cbn; try lia.
  specialize (IH s). lia.
Qed.

Lemma starts_with_drop p s :
  starts_with p s = true → String.length (drop_chars (String.length p) s) + String.length p = String.length s.
Proof.
  unfold starts_with. revert s. induction p as [|c p IH]; intros s; cbn.
  - destruct s; cbn; lia.
  - destruct s as [|x s]; [done|]. cbn. destruct (ascii_dec c x); [|done].
    intros H. specialize (IH _ H). lia.
Qed.

Lemma literal_length p s :
  starts_with p s = true → 0 < String.length p →
  String.length (drop_chars (String.length p) s) < String.length s.
Proof. intros H%starts_with_drop Hp. lia. Qed.

Lemma scan_consumes fuel :
  (∀ s v r, scan_once fuel s = Some (v, r) → String.length r < String.length s) ∧
  (∀ acc s v r, parse_members fuel acc s = Some (v, r) → String.length r < String.length s) ∧
  (∀ acc s v r, parse_elements fuel acc s = Some (v, r) → String.length r < String.length s).
Proof.
  induction fuel as [|fuel (IHs & IHm & IHe)]; [done|].
  split; [|split].
  - intros s v r H. cbn [scan_once] in H. destruct s as [|c rest]; [done|].
    destruct (Ascii.eqb c "034").
    { destruct (scanstring rest) as [[str r']|] eqn:Hs; cbn [mbind option_bind] in H; [|done].
      injection H as <- <-. apply scanstring_length in Hs. cbn. lia. }
    destruct (Ascii.eqb c "{").
    { pose proof (skip_ws_length rest) as Hw.
      destruct (skip_ws rest) as [|c1 r1]; [done|]. cbn [String.length] in *.
      destruct (Ascii.eqb c1 "}"); [injection H as <- <-; lia|].
      apply IHm in H. cbn [String.length] in *. lia. }
    destruct (Ascii.eqb c "[").
    { pose proof (skip_ws_length rest) as Hw.
      destruct (skip_ws rest) as [|c1 r1]; [done|]. cbn [String.length] in *.
      destruct (Ascii.eqb c1 "]"); [injection H as <- <-; lia|].
      apply IHe in H. cbn [String.length] in *. lia. }
    repeat match type of H with
           | (if starts_with ?p ?s then _ else _) = _ =>
               let Hp := fresh "Hp" in
               destruct (starts_with p s) eqn:Hp;
               [injection H as <- <-;
                exact (literal_length p _ Hp ltac:(cbn; lia))|]
           end.
    exact (match_number_length _ _ _ H).
  - intros acc s v r H. cbn [parse_members] in H. destruct s as [|c rest]; [done|].
    destruct (Ascii.eqb c "034"); [|done].
    destruct (scanstring rest) as [[key r1]|] eqn:Hs; cbn [mbind option_bind] in H; [|done].
    apply scanstring_length in Hs.
    pose proof (skip_ws_length r1) as Hw1.
    destruct (skip_ws r1) as [|c2 r2]; [done|].
    destruct (Ascii.eqb c2 ":"); [|done].
    pose proof (skip_ws_length r2) as Hw2.
    destruct (scan_once fuel (skip_ws r2)) as [[val r3]|] eqn:Hv;
      cbn [mbind option_bind] in H; [|done].
    apply IHs in Hv.
    pose proof (skip_ws_length r3) as Hw3.
    destruct (skip_ws r3) as [|c4 r4]; [done|]. cbn [String.length] in *.
    destruct (Ascii.eqb c4 "}"); [injection H as <- <-; lia|].
    destruct (Ascii.eqb c4 ","); [|done].
    apply IHm in H. pose proof (skip_ws_length r4). lia.
  - intros acc s v r H. cbn [parse_elements] in H.
    destruct (scan_once fuel s) as [[val r1]|] eqn:Hv; cbn [mbind option_bind] in H; [|done].
    apply IHs in Hv.
    pose proof (skip_ws_length r1) as Hw1.
    destruct (skip_ws r1) as [|c2 r2]; [done|]. cbn [String.length] in *.
    destruct (Ascii.eqb c2 "]"); [injection H as <- <-; lia|].
    destruct (Ascii.eqb c2 ","); [|done].
    apply IHe in H. pose proof (skip_ws_length r2). lia.
Qed.

Lemma scan_fuel n s :
  String.length s ≤ n →
  (∀ f1 f2, 2 * String.length s + 1 ≤ f1 → 2 * String.length s + 1 ≤ f2 →
            scan_once f1 s = scan_once f2 s) ∧
  (∀ f1 f2 acc, 2 * String.length s + 1 ≤ f1 → 2 * String.length s + 1 ≤ f2 →
                parse_members f1 acc s = parse_members f2 acc s) ∧
  (∀ f1 f2 acc, 2 * String.length s + 2 ≤ f1 → 2 * String.length s + 2 ≤ f2 →
                parse_elements f1 acc s = parse_elements f2 acc s).
Proof.
  revert s. induction n as [|n IH]; intros s Hn.
  { destruct s; [|cbn in Hn; lia].
    split; [|split]; intros [|f1] [|f2]; try (cbn; lia); try done.
    intros acc H1 H2. cbn [parse_elements].
    destruct f1, f2; try (cbn in *; lia). done. }
  assert (∀ f1 f2, 2 * String.length s + 1 ≤ f1 → 2 * String.length s + 1 ≤ f2 →
                   scan_once f1 s = scan_once f2 s) as Hscan.
  { intros [|f1] [|f2] H1 H2; try lia. cbn [scan_once].
    destruct s as [|c rest]; [done|]. cbn [String.length] in *.
    destruct (Ascii.eqb c "034"); [done|].
    destruct (Ascii.eqb c "{").
    { pose proof (skip_ws_length rest) as Hw.
      destruct (skip_ws rest) as [|c1 r1]; [done|].
      destruct (Ascii.eqb c1 "}"); [done|].
      apply (IH (String c1 r1)); lia. }
    destruct (Ascii.eqb c "[").
    { pose proof (skip_ws_length rest) as Hw.
      destruct (skip_ws rest) as [|c1 r1]; [done|].
      destruct (Ascii.eqb c1 "]"); [done|].
      apply (IH (String c1 r1)); lia. }
    done. }
  split; [exact Hscan|]. split.
  - intros [|f1] [|f2] acc H1 H2; try lia. cbn [parse_members].
    destruct s as [|c rest]; [done|]. cbn [String.length] in *.
    destruct (Ascii.eqb c "034"); [|done].
    destruct (scanstring rest) as [[key r1]|] eqn:Hs; cbn [mbind option_bind]; [|done].
    apply scanstring_length in Hs.
    pose proof (skip_ws_length r1) as Hw1.
    destruct (skip_ws r1) as [|c2 r2]; [done|]. cbn [String.length] in *.
    destruct (Ascii.eqb c2 ":"); [|done].
    pose proof (skip_ws_length r2) as Hw2.
    rewrite (proj1 (IH (skip_ws r2) ltac:(lia)) f1 f2) by lia.
    destruct (scan_once f2 (skip_ws r2)) as [[val r3]|] eqn:Hv;
      cbn [mbind option_bind]; [|done].
    apply scan_consumes in Hv.
    pose proof (skip_ws_length r3) as Hw3.
    destruct (skip_ws r3) as [|c4 r4]; [done|]. cbn [String.length] in *.
    destruct (Ascii.eqb c4 "}"); [done|].
    destruct (Ascii.eqb c4 ","); [|done].
    pose proof (skip_ws_length r4) as Hw4.
    apply (IH (skip_ws r4)); lia.
  - intros [|f1] [|f2] acc H1 H2; try lia. cbn [parse_elements].
    rewrite (Hscan f1 f2) by lia.
    destruct (scan_once f2 s) as [[val r1]|] eqn:Hv; cbn [mbind option_bind]; [|done].
    apply scan_consumes in Hv.
    pose proof (skip_ws_length r1) as Hw1.
    destruct (skip_ws r1) as [|c2 r2]; [done|]. cbn [String.length] in *.
    destruct (Ascii.eqb c2 "]"); [done|].
    destruct (Ascii.eqb c2 ","); [|done].
    pose proof (skip_ws_length r2) as Hw2.
    apply (IH (skip_ws r2)); lia.
Qed.

(** More fuel than [json_loads] gives changes nothing. *)
Lemma scan_once_fuel s fuel :
  2 * String.length s + 1 ≤ fuel →
  scan_once fuel s = scan_once (2 * String.length s + 1) s.
Proof. intros Hf. by apply (scan_fuel (String.length s) s). Qed.

Lemma json_loads_fuel s fuel :
  2 * String.length s + 1 ≤ fuel →
  json_loads s
  = '(v, rest) ← scan_once fuel (skip_ws s);
    match skip_ws rest with EmptyString => Some v | _ => None end.
Proof.
  intros Hf. unfold json_loads. pose proof (skip_ws_length s).
  by rewrite (proj1 (scan_fuel _ (skip_ws s) (le_n _)) _ fuel) by lia.
Qed.

(** *** generate_problem *)

Lemma py_all_in_true keys data :
  py_all_in keys data = Some true ↔ ∀ key, key ∈ keys → py_in key data = Some true.
Proof.
  induction keys as [|k keys IH]; cbn.
  - split; [|done]. intros _ key Hin. by apply elem_of_nil in Hin.
  - destruct (py_in k data) as [[]|] eqn:Hk; cbn.
    + rewrite IH. split.
      * intros Hall key [->|Hin]%elem_of_cons; auto.
      * intros Hall key Hin. apply Hall. by right.
    + split; [done|]. intros Hall.
      specialize (Hall k (list_elem_of_here _ _)). congruence.
    + split; [done|]. intros Hall.
      specialize (Hall k (list_elem_of_here _ _)). congruence.
Qed.

Lemma py_in_object key fields :
  py_in key (JObj fields) = Some true ↔ is_Some (dict_get key fields).
Proof. cbn. split; [intros [= H]; by apply bool_decide_eq_true in H|]. intros H. by rewrite bool_decide_eq_true_2. Qed.

Lemma generate_problem_cases response :
  generate_problem response = fallback_item ∨
  ∃ text data,
    response = Some text ∧ json_loads (clean text) = Some data ∧
    py_all_in required_keys data = Some true ∧ generate_problem response = data.
Proof.
  unfold generate_problem, try_generate.
  destruct response as [text|]; cbn [mbind option_bind]; [|by left].
  destruct (json_loads (clean text)) as [data|] eqn:Hparse;
    cbn [mbind option_bind]; [|by left].
  destruct (py_all_in required_keys data) as [[]|] eqn:Hkeys; cbn [mbind option_bind].
  - right. by exists text, data.
  - by left.
  - by left.
Qed.

(** C2. Whatever fails in the generation path -- the call raises, the
    cleaned text is not JSON, or a required key is not in the parsed value --
    the result is the one fixed item: the question on 2x + 3 = 11 with the
    choices 3, 4, 5, 6, the answer B and its explanation. *)
Theorem fallback_on_any_failure response :
  (response = None ∨
   ∃ text, response = Some text ∧
     (json_loads (clean text) = None ∨
      ∃ data key, json_loads (clean text) = Some data ∧
                  key ∈ required_keys ∧ py_in key data ≠ Some true)) →
  generate_problem response = fallback_item ∧
  py_getitem fallback_item "question" = Some (JStr "If 2x + 3 = 11, what is x?") ∧
  py_getitem fallback_item "choices"
  = Some (JObj [("A", JStr "3"); ("B", JStr "4"); ("C", JStr "5"); ("D", JStr "6")]) ∧
  py_getitem fallback_item "correct_answer" = Some (JStr "B") ∧
  py_getitem fallback_item "explanation" = Some (JStr "2x + 3 = 11 → 2x = 8 → x = 4").
Proof.
  intros Hfail. split; [|by repeat split].
  destruct (generate_problem_cases response)
    as [Hfb|(text & data & -> & Hparse & Hkeys & _)]; [done|].
  destruct Hfail as [[=]|(text' & [= <-] & [Hnone|(data' & key & Hparse' & Hin & Hmiss)])].
  - congruence.
  - rewrite Hparse in Hparse'. injection Hparse' as <-.
    rewrite py_all_in_true in Hkeys. by destruct Hmiss; apply Hkeys.
Qed.

(** C1, as the code has it.  Of the shape of the parsed value only the four
    required keys are checked.  A response that parses to an object is
    returned as it is when the object has the four keys, whatever is under
    [choices] and [correct_answer], and gives the fallback item when a key
    is missing; a call that raises or a text that does not parse gives the
    fallback item.  So an object that is returned has the four required
    keys. *)
Theorem generate_problem_checks_keys response :
  (∀ text fields,
     response = Some text → json_loads (clean text) = Some (JObj fields) →
     generate_problem response
     = if forallb (λ key, bool_decide (is_Some (dict_get key fields))) required_keys
       then JObj fields else fallback_item) ∧
  ((response = None ∨ ∃ text, response = Some text ∧ json_loads (clean text) = None) →
   generate_problem response = fallback_item) ∧
  (∀ fields,
     generate_problem response = JObj fields →
     ∀ key, key ∈ required_keys → is_Some (dict_get key fields)).
Proof.
  split; [|split].
  - intros text fields -> Hparse.
    unfold generate_problem, try_generate. cbn [mbind option_bind].
    rewrite Hparse. cbn.
    repeat (case_bool_decide; cbn; [|done]). done.
  - intros [->|(text & -> & Hnone)]; [done|].
    unfold generate_problem, try_generate. cbn [mbind option_bind].
    by rewrite Hnone.
  - intros fields Hres key Hin.
    destruct (generate_problem_cases response)
      as [Hfb|(text & data & -> & Hparse & Hkeys & Hdata)].
    + rewrite Hfb in Hres. injection Hres as <-.
      unfold required_keys in Hin.
      repeat (apply elem_of_cons in Hin as [->|Hin]; [by eexists|]).
      by apply elem_of_nil in Hin.
    + rewrite Hdata in Hres. subst data.
      apply py_in_object. by apply (proj1 (py_all_in_true _ _) Hkeys).
Qed.

(** *** The question reply *)

Lemma string_app_assoc (s1 s2 s3 : string) : (s1 +:+ s2) +:+ s3 = s1 +:+ (s2 +:+ s3).
Proof.
  induction s1 as [|c s1 IH]; [done|].
  change (String c ((s1 +:+ s2) +:+ s3) = String c (s1 +:+ (s2 +:+ s3))).
  by rewrite IH.
Qed.

Lemma string_app_nil_r (s : string) : s +:+ EmptyString = s.
Proof.
  induction s as [|c s IH]; [done|].
  change (String c (s +:+ EmptyString) = String c s). by rewrite IH.
Qed.

Lemma fold_add_choice choices formatted :
  fold_left add_choice (as_json choices) formatted = formatted +:+ choice_lines choices.
Proof.
  revert formatted. induction choices as [|[key value] choices IH]; intros formatted.
  - cbn. by rewrite string_app_nil_r.
  - cbn [as_json fmap list_fmap fold_left foldr choice_lines].
    fold (as_json choices). rewrite IH.
    unfold add_choice, choice_line. cbn [fst snd py_str].
    fold (choice_lines choices). by rewrite !string_app_assoc.
Qed.

Lemma format_question_layout fields question choices :
  dict_get "question" fields = Some (JStr question) →
  dict_get "choices" fields = Some (JObj (as_json choices)) →
  format_question (JObj fields) = Some (layout question choices).
Proof.
  intros Hq Hc. unfold format_question. cbn [py_getitem].
  rewrite Hq, Hc. cbn [mbind option_bind py_items py_str].
  rewrite fold_add_choice. unfold layout. by rewrite !string_app_assoc.
Qed.

Lemma texts_as_json cs :
  forallb (λ kv, is_text kv.2) cs = true → ∃ choices, cs = as_json choices ∧ choices.*1 = cs.*1.
Proof.
  induction cs as [|[key value] cs IH]; [by exists []|].
  cbn [forallb snd]. intros [Hv Hcs]%andb_prop.
  destruct (IH Hcs) as (choices & -> & Hkeys). destruct value; try done.
  exists ((key, s) :: choices). split; [done|]. cbn. by rewrite Hkeys.
Qed.

(** a well-formed item has a text as its question and texts as its choices,
    under the labels A, B, C, D in some order *)
Lemma well_formed_texts data :
  well_formed data = true →
  ∃ fields question choices,
    data = JObj fields ∧
    dict_get "question" fields = Some (JStr question) ∧
    dict_get "choices" fields = Some (JObj (as_json choices)) ∧
    choices.*1 ≡ₚ letters.
Proof.
  unfold well_formed. destruct data as [| | | | | |fields]; try done.
  destruct (dict_get "question" fields) as [[| | | |q| |]|] eqn:Hq; try done.
  destruct (dict_get "choices" fields) as [[| | | | | |cs]|] eqn:Hc; try done.
  destruct (dict_get "correct_answer" fields) as [[| | | |a| |]|]; try done.
  destruct (dict_get "explanation" fields) as [[| | | |e| |]|]; try done.
  intros H. repeat (apply andb_prop in H as [H ?]).
  destruct (texts_as_json cs) as (choices & -> & Hkeys); [done|].
  exists fields, q, choices. do 3 (split; [done|]).
  rewrite Hkeys.
  match goal with
  | Hp : bool_decide (_ ≡ₚ _) = true |- _ => by apply bool_decide_eq_true in Hp
  end.
Qed.

(** C6, as the code has it.  For every well-formed item, the reply to a
    user without an open question is the question, a blank line, one line
    [label) text] per choice in the order in which the mapping of the item
    lists them (each of A, B, C, D once), a blank line and the instruction;
    for an item that lists A, B, C, D in this order these are the four
    lines of the specification. *)
Theorem question_reply_layout upd msg user_id response st :
  message upd = Some msg →
  effective_user upd = Some user_id →
  user_sessions st !! user_id = None →
  well_formed (generate_problem response) = true →
  ∃ fields question choices,
    generate_problem response = JObj fields ∧
    dict_get "question" fields = Some (JStr question) ∧
    dict_get "choices" fields = Some (JObj (as_json choices)) ∧
    choices.*1 ≡ₚ letters ∧
    format_question (JObj fields) = Some (layout question choices) ∧
    (problem upd response st).1.2
    = [SendTyping; GenerateContent; ReplyText (layout question choices)] ∧
    (∀ a b c d,
       choices = [("A", a); ("B", b); ("C", c); ("D", d)] →
       layout question choices
       = question +:+ nl +:+ nl
         +:+ "A) " +:+ a +:+ nl +:+ "B) " +:+ b +:+ nl
         +:+ "C) " +:+ c +:+ nl +:+ "D) " +:+ d +:+ nl
         +:+ nl +:+ "📝 Reply with A, B, C, or D." ∧
       spec_layout question choices = Some (layout question choices)).
Proof.
  intros Hmsg Huser Hidle Hwf.
  destruct (well_formed_texts _ Hwf) as (fields & question & choices & Hdata & Hq & Hc & Hperm).
  exists fields, question, choices.
  pose proof (format_question_layout _ _ _ Hq Hc) as Hformat.
  do 5 (split; [done|]). split.
  - unfold problem. rewrite Hmsg, Huser, Hidle.
    rewrite bool_decide_eq_false_2 by (by intros [? ?]).
    cbv zeta. by rewrite Hdata, Hformat.
  - intros a b c d ->. split; [|done].
    unfold layout, choice_lines, choice_line. cbn [foldr fst snd].
    by rewrite !string_app_assoc.
Qed.

(** *** Fences *)

Lemma string_app_cons c (s t : string) : String c s +:+ t = String c (s +:+ t).
Proof. reflexivity. Qed.

Lemma prefix_nil s : String.prefix EmptyString s = true.
Proof. by destruct s. Qed.

Lemma prefix_app p s : String.prefix p (p +:+ s) = true.
Proof.
  induction p as [|c p IH]; [apply prefix_nil|].
  rewrite string_app_cons. cbn. by destruct (ascii_dec c c).
Qed.


Lemma has_char_app c a b : has_char c (a +:+ b) = has_char c a || has_char c b.
Proof.
  induction a as [|x a IH]; [done|].
  rewrite string_app_cons. cbn. rewrite IH. by destruct (Ascii.eqb x c).
Qed.





Lemma rstrip_idem s : rstrip (rstrip s) = rstrip s.
Proof.
  induction s as [|c s IH]; [done|].
  cbn. destruct (rstrip s) as [|c' r] eqn:Hr.
  - destruct (is_space c) eqn:Hc; [done|]. cbn. by rewrite Hc.
  - cbn [rstrip] in *. by rewrite IH.
Qed.

Lemma rstrip_head c s :
  is_space c = false → ∃ r, rstrip (String c s) = String c r.
Proof.
  intros Hc. cbn. destruct (rstrip s); rewrite ?Hc; eauto.
Qed.

Lemma lstrip_head s :
  lstrip s = EmptyString ∨ ∃ c r, lstrip s = String c r ∧ is_space c = false.
Proof.
  induction s as [|c s IH]; [by left|].
  cbn. destruct (is_space c) eqn:Hc; [done|]. right. eauto.
Qed.

Lemma strip_idem s : strip (strip s) = strip s.
Proof.
  unfold strip. destruct (lstrip_head s) as [->|(c & r & -> & Hc)]; [done|].
  destruct (rstrip_head c r Hc) as [r' Hr]. rewrite Hr.
  cbn [lstrip]. rewrite Hc, <- Hr. apply rstrip_idem.
Qed.




Lemma replace_from_skip old new p s :
  replace_from old new (String.length p) (p +:+ s) = replace_from old new 0 s.
Proof.
  induction p as [|c p IH]; [done|].
  rewrite string_app_cons. exact IH.
Qed.

Lemma replace_match c old new s :
  replace (String c old) new (String c old +:+ s)
  = new +:+ replace (String c old) new s.
Proof.
  unfold replace. rewrite string_app_cons at 1. cbn [replace_from].
  rewrite <- string_app_cons, prefix_app. cbn [String.length].
  by rewrite replace_from_skip.
Qed.














(** *** Grading *)

Lemma alter_present {A} (f : A → A) (m : gmap Z A) i x :
  m !! i = Some x → alter f i m = <[i := f x]> m.
Proof.
  intros Hx. apply map_eq. intros j. destruct (decide (i = j)) as [->|Hne].
  - by rewrite lookup_alter_eq, lookup_insert_eq, Hx.
  - by rewrite lookup_alter_ne, lookup_insert_ne.
Qed.

(** the three statements on [user_scores], seen as one update *)
Lemma scores_after_grading (b : bool) user_id (scores : gmap Z Score) :
  (let scores1 := match scores !! user_id with
                  | Some _ => scores
                  | None => <[user_id := mkScore 0 0]> scores
                  end in
   let scores2 := alter add_total user_id scores1 in
   if b then alter add_correct user_id scores2 else scores2)
  = <[user_id := spec_record b (default (mkScore 0 0) (scores !! user_id))]> scores.
Proof.
  cbv zeta. destruct (scores !! user_id) as [r|] eqn:Hr; cbn [default].
  - rewrite (alter_present _ _ _ _ Hr). destruct b.
    + by rewrite alter_insert_eq.
    + f_equal. unfold add_total, spec_record. cbn. f_equal; lia.
  - rewrite alter_insert_eq. destruct b.
    + by rewrite alter_insert_eq.
    + done.
Qed.

Lemma check_answer_graded upd msg t user_id data correct_answer st :
  message upd = Some msg →
  text msg = Some t →
  effective_user upd = Some user_id →
  user_sessions st !! user_id = Some data →
  normalize t ∈ letters →
  py_getitem data "correct_answer" = Some correct_answer →
  check_answer upd st
  = graded_outcome (py_eq_str (normalize t) correct_answer) user_id data correct_answer st.
Proof.
  intros Hmsg Htext Huser Hopen Hletter Hcorrect.
  unfold check_answer, graded_outcome.
  rewrite Hmsg, Huser, Htext, Hopen, Hcorrect.
  rewrite (bool_decide_eq_true_2 _ Hletter). cbn [negb].
  pose proof (scores_after_grading (py_eq_str (normalize t) correct_answer)
                user_id (user_scores st)) as Hscores.
  cbv zeta in Hscores. unfold read.
  destruct (py_eq_str (normalize t) correct_answer); cbn [verdict];
    rewrite Hscores; rewrite lookup_insert_eq;
    destruct (py_getitem data "explanation" ≫= _); reflexivity.
Qed.

Lemma py_eq_str_true answer v : py_eq_str answer v = true ↔ v = JStr answer.
Proof.
  destruct v; cbn; try (split; [discriminate | congruence]).
  rewrite String.eqb_eq. split; congruence.
Qed.

Lemma letters_upper answer : answer ∈ letters → upper_letter (JStr answer).
Proof.
  unfold letters. rewrite !elem_of_cons, elem_of_nil.
  intros [->|[->|[->|[->|[]]]]]; eexists; split; reflexivity.
Qed.

(** every way [check_answer] can end, as far as the scores go *)
Lemma check_answer_scores upd st :
  user_scores (check_answer upd st).1.1 = user_scores st ∨
  ∃ user_id b,
    user_scores (check_answer upd st).1.1
    = <[user_id := spec_record b (read user_id st)]> (user_scores st).
Proof.
  destruct (message upd) as [msg|] eqn:Hmsg;
    [|left; unfold check_answer; by rewrite Hmsg].
  destruct (effective_user upd) as [user_id|] eqn:Huser;
    [|left; unfold check_answer; by rewrite Hmsg, Huser].
  destruct (text msg) as [t|] eqn:Htext;
    [|left; unfold check_answer; by rewrite Hmsg, Huser, Htext].
  destruct (user_sessions st !! user_id) as [data|] eqn:Hopen;
    [|left; unfold check_answer; by rewrite Hmsg, Huser, Htext, Hopen].
  destruct (decide (normalize t ∈ letters)) as [Hletter|Hbad];
    [|left; unfold check_answer; rewrite Hmsg, Huser, Htext, Hopen;
      by rewrite bool_decide_eq_false_2].
  destruct (py_getitem data "correct_answer") as [correct_answer|] eqn:Hcorrect.
  - right. exists user_id, (py_eq_str (normalize t) correct_answer).
    rewrite (check_answer_graded _ _ _ _ _ _ _ Hmsg Htext Huser Hopen Hletter Hcorrect).
    unfold graded_outcome. by destruct (py_getitem data "explanation" ≫= _).
  - left. unfold check_answer. rewrite Hmsg, Huser, Htext, Hopen, Hcorrect.
    by rewrite bool_decide_eq_true_2.
Qed.

Lemma step_scores st tr :
  user_scores (step st tr) = user_scores st ∨
  ∃ user_id b,
    user_scores (step st tr) = <[user_id := spec_record b (read user_id st)]> (user_scores st).
Proof.
  destruct tr as [upd|upd response|upd]; unfold step; cbn [handle].
  - left. unfold start. by destruct (message upd).
  - left. unfold problem.
    destruct (message upd), (effective_user upd); try done.
    case_bool_decide; [done|]. by destruct (format_question _).
  - apply check_answer_scores.
Qed.

Lemma read_insert user_id other r st scores' :
  scores' = <[user_id := r]> (user_scores st) →
  default (mkScore 0 0) (scores' !! other)
  = if decide (user_id = other) then r else read other st.
Proof.
  intros ->. unfold read. case_decide as Heq.
  - subst. by rewrite lookup_insert_eq.
  - by rewrite lookup_insert_ne.
Qed.

Lemma read_ok user_id st :
  scores_ok st → (0 ≤ correct (read user_id st) ≤ total (read user_id st))%Z.
Proof.
  intros Hok. unfold read. destruct (user_scores st !! user_id) as [r|] eqn:Hr; cbn.
  - by apply (Hok user_id).
  - lia.
Qed.

Lemma step_scores_ok st tr : scores_ok st → scores_ok (step st tr).
Proof.
  intros Hok. destruct (step_scores st tr) as [Hsame|(user_id & b & Hrec)].
  - unfold scores_ok. by rewrite Hsame.
  - intros other r. rewrite Hrec. destruct (decide (user_id = other)) as [->|Hne].
    + rewrite lookup_insert_eq. intros [= <-].
      pose proof (read_ok other st Hok). destruct b; cbn; lia.
    + rewrite lookup_insert_ne by done. apply Hok.
Qed.

Lemma run_scores_ok st trs : scores_ok st → scores_ok (run st trs).
Proof.
  revert st. induction trs as [|tr trs IH]; intros st Hok; [done|].
  cbn. apply IH. by apply step_scores_ok.
Qed.

Lemma initial_scores_ok : scores_ok initial.
Proof. intros user_id r. cbn. by rewrite lookup_empty. Qed.

Lemma step_monotone st tr user_id :
  (correct (read user_id st) ≤ correct (read user_id (step st tr)))%Z ∧
  (total (read user_id st) ≤ total (read user_id (step st tr)))%Z.
Proof.
  destruct (step_scores st tr) as [Hsame|(graded & b & Hrec)].
  - unfold read. rewrite Hsame. lia.
  - unfold read at 2 4. rewrite (read_insert graded user_id _ st _ Hrec).
    case_decide as Heq; [subst|lia]. destruct b; cbn; lia.
Qed.

Lemma run_monotone st trs user_id :
  (correct (read user_id st) ≤ correct (read user_id (run st trs)))%Z ∧
  (total (read user_id st) ≤ total (read user_id (run st trs)))%Z.
Proof.
  revert st. induction trs as [|tr trs IH]; intros st; [cbn; lia|].
  cbn. pose proof (step_monotone st tr user_id). pose proof (IH (step st tr)).
  unfold run in *. lia.
Qed.

(** X1: C4 for a stored object.  A graded answer -- the text normalizes to
    A, B, C or D while the user has an open question, whose [correct_answer]
    it is compared with -- makes the record of the user out of [{0,0}] when there is none, adds 1 to
    [total], and adds 1 to [correct] exactly when the normalized answer is
    the stored [correct_answer]; no other record changes.  In every state
    reached from the empty stores, before and after any trigger,
    [0 <= correct <= total] for every record; and along any sequence of
    triggers no counter of any user decreases. *)
Theorem graded_answer_scoring :
  (∀ upd msg t user_id data correct_answer st,
      message upd = Some msg →
      text msg = Some t →
      effective_user upd = Some user_id →
      user_sessions st !! user_id = Some data →
      normalize t ∈ letters →
      py_getitem data "correct_answer" = Some correct_answer →
      let st' := step st (OnText upd) in
      let same := py_eq_str (normalize t) correct_answer in
      (same = true ↔ correct_answer = JStr (normalize t)) ∧
      total (read user_id st') = (total (read user_id st) + 1)%Z ∧
      correct (read user_id st') = (correct (read user_id st) + if same then 1 else 0)%Z ∧
      is_Some (user_scores st' !! user_id) ∧
      (user_scores st !! user_id = None → read user_id st = mkScore 0 0) ∧
      ∀ other, other ≠ user_id → user_scores st' !! other = user_scores st !! other) ∧
  (∀ trs tr,
      scores_ok (run initial trs) ∧ scores_ok (step (run initial trs) tr)) ∧
  (∀ st trs1 trs2 user_id,
      (correct (read user_id (run st trs1))
       ≤ correct (read user_id (run st (trs1 ++ trs2))))%Z ∧
      (total (read user_id (run st trs1))
       ≤ total (read user_id (run st (trs1 ++ trs2))))%Z).
Proof.
  split; [|split].
  - intros upd msg t user_id data correct_answer st
      Hmsg Htext Huser Hopen Hletter Hcorrect st' same.
    assert (user_scores st'
            = <[user_id := spec_record same (read user_id st)]> (user_scores st))
      as Hscores.
    { unfold st', step. cbn [handle].
      rewrite (check_answer_graded _ _ _ _ _ _ _ Hmsg Htext Huser Hopen Hletter Hcorrect).
      unfold graded_outcome. by destruct (py_getitem data "explanation" ≫= _). }
    split; [apply py_eq_str_true|].
    unfold read at 1 3. rewrite Hscores, !lookup_insert_eq. cbn [default].
    split; [reflexivity|]. split; [reflexivity|]. split; [eauto|]. split.
    + intros Hnone. unfold read. by rewrite Hnone.
    + intros other Hne. by rewrite lookup_insert_ne.
  - intros trs tr.
    pose proof (run_scores_ok initial trs initial_scores_ok) as Hok.
    split; [done|]. by apply step_scores_ok.
  - intros st trs1 trs2 user_id. rewrite run_app. apply run_monotone.
Qed.

(** C10. The stored [correct_answer] is compared as it is.  When it is not
    an upper-case single letter, every graded answer is found incorrect:
    [total] grows by one, [correct] stays, and the reply, when there is one,
    is the one of a wrong answer. *)
Theorem unnormalized_stored_answer upd msg t user_id data correct_answer st :
  message upd = Some msg →
  text msg = Some t →
  effective_user upd = Some user_id →
  user_sessions st !! user_id = Some data →
  normalize t ∈ letters →
  py_getitem data "correct_answer" = Some correct_answer →
  ¬ upper_letter correct_answer →
  py_eq_str (normalize t) correct_answer = false ∧
  check_answer upd st = graded_outcome false user_id data correct_answer st ∧
  user_scores (check_answer upd st).1.1 !! user_id
  = Some (mkScore (correct (read user_id st)) (total (read user_id st) + 1)%Z).
Proof.
  intros Hmsg Htext Huser Hopen Hletter Hcorrect Hnot.
  assert (py_eq_str (normalize t) correct_answer = false) as Hwrong.
  { apply not_true_is_false. rewrite py_eq_str_true. intros ->.
    by apply Hnot, letters_upper. }
  split; [done|].
  rewrite (check_answer_graded _ _ _ _ _ _ _ Hmsg Htext Huser Hopen Hletter Hcorrect).
  rewrite Hwrong. split; [done|].
  unfold graded_outcome.
  destruct (py_getitem data "explanation" ≫= _); cbn [fst user_scores];
    rewrite lookup_insert_eq; unfold spec_record; do 2 f_equal; lia.
Qed.

(** * Further properties of the handlers *)

(** *** The ways a trigger changes the state *)

Lemma graded_outcome_state b user_id data correct_answer st :
  (graded_outcome b user_id data correct_answer st).1.1
  = mkState
      (match py_getitem data "explanation" ≫= py_concat ("Explanation:" +:+ nl) with
       | Some _ => delete user_id (user_sessions st)
       | None => user_sessions st
       end)
      (<[user_id := spec_record b (read user_id st)]> (user_scores st)).
Proof. unfold graded_outcome. by destruct (py_getitem data "explanation" ≫= _). Qed.

(** [check_answer] leaves the state as it is, or grades *)
Lemma check_answer_cases upd st :
  (check_answer upd st).1.1 = st ∨
  ∃ msg t user_id data correct_answer,
    message upd = Some msg ∧ text msg = Some t ∧
    effective_user upd = Some user_id ∧
    user_sessions st !! user_id = Some data ∧
    normalize t ∈ letters ∧
    py_getitem data "correct_answer" = Some correct_answer ∧
    check_answer upd st
    = graded_outcome (py_eq_str (normalize t) correct_answer) user_id data correct_answer st.
Proof.
  destruct (message upd) as [msg|] eqn:Hmsg;
    [|left; unfold check_answer; by rewrite Hmsg].
  destruct (effective_user upd) as [user_id|] eqn:Huser;
    [|left; unfold check_answer; by rewrite Hmsg, Huser].
  destruct (text msg) as [t|] eqn:Htext;
    [|left; unfold check_answer; by rewrite Hmsg, Huser, Htext].
  destruct (user_sessions st !! user_id) as [data|] eqn:Hopen;
    [|left; unfold check_answer; by rewrite Hmsg, Huser, Htext, Hopen].
  destruct (decide (normalize t ∈ letters)) as [Hletter|Hbad];
    [|left; unfold check_answer; rewrite Hmsg, Huser, Htext, Hopen;
      by rewrite bool_decide_eq_false_2].
  destruct (py_getitem data "correct_answer") as [correct_answer|] eqn:Hcorrect.
  - right. exists msg, t, user_id, data, correct_answer. repeat (split; [done|]).
    by apply (check_answer_graded _ msg).
  - left. unfold check_answer. rewrite Hmsg, Huser, Htext, Hopen, Hcorrect.
    by rewrite bool_decide_eq_true_2.
Qed.

(** [problem] leaves the state as it is, or opens a question for an idle user *)
Lemma problem_cases upd response st :
  (problem upd response st).1.1 = st ∨
  ∃ user_id,
    is_Some (message upd) ∧ effective_user upd = Some user_id ∧
    user_sessions st !! user_id = None ∧
    (problem upd response st).1.1
    = mkState (<[user_id := generate_problem response]> (user_sessions st)) (user_scores st).
Proof.
  unfold problem. destruct (message upd) as [msg|]; [|by left].
  destruct (effective_user upd) as [user_id|]; [|by left].
  case_bool_decide as Hopen; [by left|].
  right. exists user_id. split; [eauto|]. split; [done|].
  split; [by apply eq_None_not_Some|]. by destruct (format_question _).
Qed.

(** the three kinds of steps *)
Lemma step_cases st tr :
  step st tr = st ∨
  (∃ upd response user_id,
      tr = OnProblem upd response ∧
      is_Some (message upd) ∧ effective_user upd = Some user_id ∧
      user_sessions st !! user_id = None ∧
      step st tr
      = mkState (<[user_id := generate_problem response]> (user_sessions st))
          (user_scores st)) ∨
  (∃ upd msg t user_id data correct_answer,
      tr = OnText upd ∧
      message upd = Some msg ∧ text msg = Some t ∧
      effective_user upd = Some user_id ∧
      user_sessions st !! user_id = Some data ∧
      normalize t ∈ letters ∧
      py_getitem data "correct_answer" = Some correct_answer ∧
      step st tr
      = mkState
          (match py_getitem data "explanation" ≫= py_concat ("Explanation:" +:+ nl) with
           | Some _ => delete user_id (user_sessions st)
           | None => user_sessions st
           end)
          (<[user_id := spec_record (py_eq_str (normalize t) correct_answer)
                          (read user_id st)]> (user_scores st))).
Proof.
  destruct tr as [upd|upd response|upd]; unfold step; cbn [handle].
  - left. unfold start. by destruct (message upd).
  - destruct (problem_cases upd response st) as [Hsame|(user_id & Hmsg & Huser & Hidle & Hst)];
      [by left|].
    right; left. by exists upd, response, user_id.
  - destruct (check_answer_cases upd st)
      as [Hsame|(msg & t & user_id & data & v & Hmsg & Htext & Huser & Hopen & Hl & Hv & Hst)];
      [by left|].
    right; right. exists upd, msg, t, user_id, data, v. repeat (split; [done|]).
    rewrite Hst. apply graded_outcome_state.
Qed.

(** *** Users do not interfere *)

Lemma step_other_user st tr user_id :
  sender tr ≠ Some user_id → view user_id (step st tr) = view user_id st.
Proof.
  intros Hother. unfold view.
  destruct (step_cases st tr)
    as [->|[(upd & r & u & -> & _ & Hu & _ & ->)
           |(upd & msg & t & u & data & v & -> & _ & _ & Hu & _ & _ & _ & ->)]];
    [done|..]; cbn [sender] in Hother; cbn [user_sessions user_scores];
    assert (u ≠ user_id) as Hne by congruence.
  - by rewrite lookup_insert_ne.
  - rewrite lookup_insert_ne by done.
    destruct (py_getitem data "explanation" ≫= _); [|done].
    by rewrite lookup_delete_ne.
Qed.

(** the state after [problem], in one expression *)
Lemma problem_state upd response st :
  (problem upd response st).1.1
  = match message upd, effective_user upd with
    | Some _, Some user_id =>
        if bool_decide (is_Some (user_sessions st !! user_id)) then st
        else mkState (<[user_id := generate_problem response]> (user_sessions st))
               (user_scores st)
    | _, _ => st
    end.
Proof.
  unfold problem. destruct (message upd), (effective_user upd); try done.
  case_bool_decide; [done|]. by destruct (format_question _).
Qed.

(** the state after [check_answer], in one expression *)
Lemma check_answer_state upd st :
  (check_answer upd st).1.1
  = match message upd, effective_user upd with
    | Some msg, Some user_id =>
        match text msg, user_sessions st !! user_id with
        | Some t, Some data =>
            if bool_decide (normalize t ∈ letters) then
              match py_getitem data "correct_answer" with
              | Some correct_answer =>
                  mkState
                    (match py_getitem data "explanation"
                             ≫= py_concat ("Explanation:" +:+ nl) with
                     | Some _ => delete user_id (user_sessions st)
                     | None => user_sessions st
                     end)
                    (<[user_id := spec_record (py_eq_str (normalize t) correct_answer)
                                    (read user_id st)]> (user_scores st))
              | None => st
              end
            else st
        | _, _ => st
        end
    | _, _ => st
    end.
Proof.
  destruct (message upd) as [msg|] eqn:Hmsg;
    [|unfold check_answer; by rewrite Hmsg].
  destruct (effective_user upd) as [user_id|] eqn:Huser;
    [|unfold check_answer; by rewrite Hmsg, Huser].
  destruct (text msg) as [t|] eqn:Htext;
    [|unfold check_answer; by rewrite Hmsg, Huser, Htext].
  destruct (user_sessions st !! user_id) as [data|] eqn:Hopen;
    [|unfold check_answer; by rewrite Hmsg, Huser, Htext, Hopen].
  case_bool_decide as Hletter;
    [|unfold check_answer; rewrite Hmsg, Huser, Htext, Hopen;
      by rewrite bool_decide_eq_false_2].
  destruct (py_getitem data "correct_answer") as [correct_answer|] eqn:Hcorrect.
  - rewrite (check_answer_graded _ _ _ _ _ _ _ Hmsg Htext Huser Hopen Hletter Hcorrect).
    apply graded_outcome_state.
  - unfold check_answer. rewrite Hmsg, Huser, Htext, Hopen, Hcorrect.
    by rewrite bool_decide_eq_true_2.
Qed.

(** what a trigger of a user does to the view of this user depends on this
    view only *)
Lemma step_same_user st1 st2 tr user_id :
  sender tr = Some user_id →
  view user_id st1 = view user_id st2 →
  view user_id (step st1 tr) = view user_id (step st2 tr).
Proof.
  unfold view. intros Hsender [= Hs Hc].
  assert (read user_id st1 = read user_id st2) as Hread by (unfold read; by rewrite Hc).
  destruct tr as [upd|upd response|upd]; unfold step; cbn [handle sender] in *.
  - unfold start. destruct (message upd); cbn; by rewrite Hs, Hc.
  - rewrite !problem_state, Hsender. rewrite <- Hs.
    destruct (message upd); cbv beta iota; [|by rewrite Hs, Hc].
    case_bool_decide; [by rewrite Hs, Hc|].
    cbn [user_sessions user_scores]. by rewrite !lookup_insert_eq, Hc.
  - rewrite !check_answer_state, Hsender. rewrite <- Hs.
    destruct (message upd) as [msg|]; cbv beta iota; [|by rewrite Hs, Hc].
    destruct (text msg) as [t|]; cbv beta iota; [|by rewrite Hs, Hc].
    destruct (user_sessions st1 !! user_id) as [data|] eqn:Hopen;
      cbv beta iota; [|by rewrite Hopen, Hs, Hc].
    case_bool_decide; [|by rewrite Hopen, Hs, Hc].
    destruct (py_getitem data "correct_answer"); [|by rewrite Hopen, Hs, Hc].
    cbn [user_sessions user_scores]. rewrite !lookup_insert_eq, Hread.
    destruct (py_getitem data "explanation" ≫= _); [|by rewrite Hopen, Hs].
    by rewrite !lookup_delete_eq.
Qed.

Lemma run_own_triggers st1 st2 trs user_id :
  view user_id st1 = view user_id st2 →
  view user_id (run st1 trs)
  = view user_id (run st2 (filter (λ tr, sender tr = Some user_id) trs)).
Proof.
  revert st1 st2. induction trs as [|tr trs IH]; intros st1 st2 Hview; [done|].
  rewrite filter_cons. cbn [run fold_left]. case_decide as Hsender.
  - cbn [fold_left]. apply IH. by apply step_same_user.
  - apply IH. by rewrite step_other_user.
Qed.

(** X2. What the stores hold for a user -- the open question and the score
    record -- after any sequence of triggers is what they hold after the
    triggers of this user alone; in particular triggers of other users
    leave both as they are. *)
Theorem users_do_not_interfere st trs user_id :
  view user_id (run st trs)
  = view user_id (run st (filter (λ tr, sender tr = Some user_id) trs)) ∧
  (Forall (λ tr, sender tr ≠ Some user_id) trs →
   user_sessions (run st trs) !! user_id = user_sessions st !! user_id ∧
   user_scores (run st trs) !! user_id = user_scores st !! user_id).
Proof.
  split; [by apply run_own_triggers|].
  intros Hothers.
  assert (view user_id (run st trs) = view user_id st) as [= Hs Hc]; [|done].
  rewrite (run_own_triggers st st) by done.
  assert (filter (λ tr, sender tr = Some user_id) trs = []) as ->; [|done].
  induction Hothers as [|tr trs Htr _ IH]; [done|].
  by rewrite filter_cons_False.
Qed.

(** X3. A stored question is never replaced.  It appears for a user only
    through [/problem] of this user, as the value [generate_problem]
    returned; once stored it stays as it is until a text of this user that
    normalizes to A, B, C or D removes it, and that text is counted in the
    total of the user. *)
Theorem stored_item_lifecycle st tr user_id :
  (∀ data,
     user_sessions st !! user_id = None →
     user_sessions (step st tr) !! user_id = Some data →
     ∃ upd response,
       tr = OnProblem upd response ∧ is_Some (message upd) ∧
       effective_user upd = Some user_id ∧ data = generate_problem response) ∧
  (∀ data,
     user_sessions st !! user_id = Some data →
     user_sessions (step st tr) !! user_id = Some data ∨
     (user_sessions (step st tr) !! user_id = None ∧
      ∃ upd msg t explanation,
        tr = OnText upd ∧ message upd = Some msg ∧ text msg = Some t ∧
        effective_user upd = Some user_id ∧ normalize t ∈ letters ∧
        py_getitem data "explanation" = Some (JStr explanation) ∧
        total (read user_id (step st tr)) = (total (read user_id st) + 1)%Z)).
Proof.
  destruct (step_cases st tr)
    as [->|[(upd & r & u & -> & Hmsg & Hu & Hidle & ->)
           |(upd & msg & t & u & d & v & -> & Hmsg & Htext & Hu & Hopen & Hl & Hv & ->)]].
  - split; [congruence|]. intros data ->. by left.
  - cbn [user_sessions]. split.
    + intros data Hnone. destruct (decide (u = user_id)) as [->|Hne].
      * rewrite lookup_insert_eq. intros [= <-]. by exists upd, r.
      * rewrite lookup_insert_ne by done. congruence.
    + intros data Hdata. left. rewrite lookup_insert_ne; [done|congruence].
  - cbn [user_sessions]. split.
    + intros data Hnone.
      destruct (py_getitem d "explanation" ≫= _); [|congruence].
      destruct (decide (u = user_id)) as [->|Hne]; [by rewrite lookup_delete_eq|].
      rewrite lookup_delete_ne by done. congruence.
    + intros data Hdata.
      destruct (py_getitem d "explanation" ≫= py_concat ("Explanation:" +:+ nl))
        as [explained|] eqn:Hexp; [|by left].
      destruct (decide (u = user_id)) as [->|Hne];
        [|left; by rewrite lookup_delete_ne].
      right. rewrite lookup_delete_eq. split; [done|].
      assert (d = data) as -> by congruence.
      destruct (py_getitem data "explanation") as [[| | | |e| |]|]; try done.
      exists upd, msg, t, e. repeat (split; [done|]).
      unfold read at 1. cbn [user_scores]. by rewrite lookup_insert_eq.
Qed.

(** X4. A value stored without a [correct_answer] entry -- it is then no
    object with the required keys -- is never closed: whatever triggers
    follow, from this user or others, the user keeps this stored value and
    the score record stays what it was. *)
Theorem unanswerable_item_stays st trs user_id data :
  user_sessions st !! user_id = Some data →
  py_getitem data "correct_answer" = None →
  user_sessions (run st trs) !! user_id = Some data ∧
  user_scores (run st trs) !! user_id = user_scores st !! user_id.
Proof.
  intros Hopen Hnone.
  assert (view user_id (run st trs) = view user_id st) as [= Hs Hc];
    [|by rewrite Hs, Hc].
  revert st Hopen. induction trs as [|tr trs IH]; intros st Hopen; [done|].
  cbn [run fold_left].
  assert (view user_id (step st tr) = view user_id st) as Hstep.
  { unfold view.
    destruct (step_cases st tr)
      as [->|[(upd & r & u & -> & _ & _ & Hidle & ->)
             |(upd & msg & t & u & d & v & -> & _ & _ & _ & Hd & _ & Hv & ->)]];
      [done|..]; cbn [user_sessions user_scores].
    - assert (u ≠ user_id) as Hne by congruence. by rewrite lookup_insert_ne.
    - assert (u ≠ user_id) as Hne by congruence.
      rewrite lookup_insert_ne by done.
      destruct (py_getitem d "explanation" ≫= _); [|done].
      by rewrite lookup_delete_ne. }
  change (view user_id (run (step st tr) trs) = view user_id st).
  rewrite IH; [done|]. injection Hstep as Hs _. congruence.
Qed.

(** *** What is stored *)

Lemma generate_problem_checked response :
  py_all_in required_keys (generate_problem response) = Some true.
Proof.
  destruct (generate_problem_cases response) as [->|(text & data & _ & _ & Hkeys & ->)];
    [reflexivity|done].
Qed.

Lemma step_sessions_checked st tr : sessions_checked st → sessions_checked (step st tr).
Proof.
  intros Hok user_id data.
  destruct (step_cases st tr)
    as [->|[(upd & r & u & -> & _ & _ & _ & ->)
           |(upd & msg & t & u & d & v & -> & _ & _ & _ & _ & _ & _ & ->)]];
    [apply Hok|..]; cbn [user_sessions].
  - destruct (decide (u = user_id)) as [->|Hne].
    + rewrite lookup_insert_eq. intros [= <-]. apply generate_problem_checked.
    + rewrite lookup_insert_ne by done. apply Hok.
  - destruct (py_getitem d "explanation" ≫= _); [|apply Hok].
    destruct (decide (u = user_id)) as [->|Hne]; [by rewrite lookup_delete_eq|].
    rewrite lookup_delete_ne by done. apply Hok.
Qed.

Lemma run_sessions_checked st trs : sessions_checked st → sessions_checked (run st trs).
Proof.
  revert st. induction trs as [|tr trs IH]; intros st Hok; [done|].
  apply IH. by apply step_sessions_checked.
Qed.

(** X5. Whatever the completion service answered along the way, every value
    stored as an open question passed the key check of [generate_problem]:
    it is an object, a list or a text (never a number, a boolean or null),
    and when it is an object it has the four required keys, so that
    [data["correct_answer"]] and [data["explanation"]] never raise a
    [KeyError] on it. *)
Theorem stored_values_passed_key_check trs user_id data :
  user_sessions (run initial trs) !! user_id = Some data →
  py_all_in required_keys data = Some true ∧
  match data with
  | JObj fields => ∀ key, key ∈ required_keys → is_Some (dict_get key fields)
  | JArr _ | JStr _ => True
  | JNull | JBool _ | JInt _ | JFloat _ => False
  end.
Proof.
  intros Hstored.
  assert (sessions_checked initial) as Hinit.
  { intros u d. cbn. by rewrite lookup_empty. }
  pose proof (run_sessions_checked initial trs Hinit user_id data Hstored) as Hkeys.
  split; [done|]. destruct data as [| | | | | |fields]; try done.
  intros key Hin. apply py_in_object. by apply (proj1 (py_all_in_true _ _) Hkeys).
Qed.

(** *** Score records *)

(** X6. A score record is made only by a text of its user, it is never
    removed, and in every state reached from the empty stores each record
    has counted at least one answer. *)
Theorem score_records_persist :
  (∀ st tr user_id,
     user_scores st !! user_id = None →
     is_Some (user_scores (step st tr) !! user_id) →
     ∃ upd, tr = OnText upd ∧ effective_user upd = Some user_id) ∧
  (∀ st trs user_id,
     is_Some (user_scores st !! user_id) →
     is_Some (user_scores (run st trs) !! user_id)) ∧
  (∀ trs user_id r,
     user_scores (run initial trs) !! user_id = Some r → (1 ≤ total r)%Z).
Proof.
  assert (∀ st tr user_id,
            is_Some (user_scores st !! user_id) →
            is_Some (user_scores (step st tr) !! user_id)) as Hkeep.
  { intros st tr user_id Hsome.
    destruct (step_scores st tr) as [->|(u & b & ->)]; [done|].
    destruct (decide (u = user_id)) as [->|Hne].
    - rewrite lookup_insert_eq. eauto.
    - by rewrite lookup_insert_ne. }
  split; [|split].
  - intros st tr user_id Hnone Hsome.
    destruct (step_cases st tr)
      as [Heq|[(upd & r & u & -> & _ & _ & _ & Heq)
              |(upd & msg & t & u & d & v & -> & _ & _ & Hu & _ & _ & _ & Heq)]];
      rewrite Heq in Hsome; cbn [user_scores] in Hsome.
    + rewrite Hnone in Hsome. by destruct Hsome.
    + rewrite Hnone in Hsome. by destruct Hsome.
    + destruct (decide (u = user_id)) as [->|Hne]; [by exists upd|].
      rewrite lookup_insert_ne, Hnone in Hsome by done. by destruct Hsome.
  - intros st trs user_id. revert st.
    induction trs as [|tr trs IH]; intros st Hsome; [done|].
    apply IH. by apply Hkeep.
  - intros trs user_id.
    assert (∀ st, scores_ok st →
                  (∀ u r', user_scores st !! u = Some r' → (1 ≤ total r')%Z) →
                  ∀ r, user_scores (run st trs) !! user_id = Some r → (1 ≤ total r)%Z)
      as Hgen.
    { induction trs as [|tr trs IH]; intros st Hok Hone; [apply Hone|].
      cbn [run fold_left]. apply IH; [by apply step_scores_ok|].
      intros u r'. destruct (step_scores st tr) as [->|(u' & b & ->)]; [apply Hone|].
      destruct (decide (u' = u)) as [->|Hne].
      - rewrite lookup_insert_eq. intros [= <-].
        pose proof (read_ok u st Hok). cbn. lia.
      - rewrite lookup_insert_ne by done. apply Hone. }
    apply Hgen; [apply initial_scores_ok|].
    intros u r'. cbn. by rewrite lookup_empty.
Qed.

(** *** Opening a question *)

Lemma format_question_Some data :
  is_Some (format_question data) ↔
  ∃ fields question choices,
    data = JObj fields ∧ dict_get "question" fields = Some question ∧
    dict_get "choices" fields = Some (JObj choices).
Proof.
  unfold format_question. split.
  - destruct data as [| | | | | |fields]; cbn [py_getitem mbind option_bind];
      try (by intros [? [=]]).
    destruct (dict_get "question" fields) as [question|] eqn:Hq;
      cbn [mbind option_bind]; [|by intros [? [=]]].
    destruct (dict_get "choices" fields) as [[| | | | | |choices]|] eqn:Hc;
      cbn [mbind option_bind py_items]; try (by intros [? [=]]).
    intros _. by exists fields, question, choices.
  - intros (fields & question & choices & -> & Hq & Hc).
    cbn [py_getitem]. rewrite Hq, Hc. cbn. eauto.
Qed.

(** X7. For a user without an open question, [/problem] stores the value
    [generate_problem] returned before it builds the reply, and leaves the
    scores alone.  It answers with the formatted question exactly when this
    value is an object whose [choices] entry is an object; otherwise it
    raises after the call to the completion service, with no reply, and the
    value stays stored as the open question. *)
Theorem problem_when_idle upd msg user_id response st :
  message upd = Some msg →
  effective_user upd = Some user_id →
  user_sessions st !! user_id = None →
  let data := generate_problem response in
  let shaped := ∃ fields choices,
                  data = JObj fields ∧ dict_get "choices" fields = Some (JObj choices) in
  (problem upd response st).1.1
  = mkState (<[user_id := data]> (user_sessions st)) (user_scores st) ∧
  (shaped →
   ∃ formatted,
     format_question data = Some formatted ∧
     problem upd response st
     = (mkState (<[user_id := data]> (user_sessions st)) (user_scores st),
        [SendTyping; GenerateContent; ReplyText formatted], Returned)) ∧
  (¬ shaped →
   problem upd response st
   = (mkState (<[user_id := data]> (user_sessions st)) (user_scores st),
      [SendTyping; GenerateContent], Raised)).
Proof.
  intros Hmsg Huser Hidle data shaped.
  assert (shaped ↔ is_Some (format_question data)) as Hshaped.
  { rewrite format_question_Some. unfold shaped. split.
    - intros (fields & choices & Hdata & Hc).
      pose proof (generate_problem_checked response) as Hkeys.
      fold data in Hkeys. rewrite Hdata in Hkeys.
      assert (is_Some (dict_get "question" fields)) as [question Hq].
      { apply py_in_object. apply (proj1 (py_all_in_true _ _) Hkeys).
        unfold required_keys. apply list_elem_of_here. }
      by exists fields, question, choices.
    - intros (fields & question & choices & Hdata & _ & Hc). by exists fields, choices. }
  unfold problem. rewrite Hmsg, Huser, Hidle.
  rewrite bool_decide_eq_false_2 by (by intros [? ?]). cbv zeta. fold data.
  destruct (format_question data) as [formatted|] eqn:Hformat.
  - split; [done|]. split; [by exists formatted|].
    intros Hnot. destruct Hnot. apply Hshaped. eauto.
  - split; [done|]. split; [|done].
    intros [? [=]]%Hshaped.
Qed.

(** *** Answers and questions *)

(** X8. When the stored explanation is not a text, a graded answer is
    counted and then the handler raises while it builds the reply: nothing
    is sent and the question stays open.  So the same question can be
    answered again and again, and [n] such answers add [n] to the total. *)
Theorem unexplained_item_counts_every_answer upd msg t user_id data correct_answer st n :
  message upd = Some msg →
  text msg = Some t →
  effective_user upd = Some user_id →
  user_sessions st !! user_id = Some data →
  normalize t ∈ letters →
  py_getitem data "correct_answer" = Some correct_answer →
  explained data = false →
  check_answer upd st
  = (mkState (user_sessions st)
       (<[user_id := spec_record (py_eq_str (normalize t) correct_answer)
                       (read user_id st)]> (user_scores st)),
     [], Raised) ∧
  user_sessions (run st (replicate n (OnText upd))) !! user_id = Some data ∧
  total (read user_id (run st (replicate n (OnText upd))))
  = (total (read user_id st) + Z.of_nat n)%Z.
Proof.
  intros Hmsg Htext Huser Hopen Hletter Hcorrect Hexp.
  assert (py_getitem data "explanation" ≫= py_concat ("Explanation:" +:+ nl) = None)
    as Hnone.
  { unfold explained in Hexp.
    by destruct (py_getitem data "explanation") as [[| | | | | |]|]. }
  assert (∀ st', user_sessions st' !! user_id = Some data →
                 check_answer upd st'
                 = (mkState (user_sessions st')
                      (<[user_id := spec_record (py_eq_str (normalize t) correct_answer)
                                      (read user_id st')]> (user_scores st')),
                    [], Raised)) as Hone.
  { intros st' Hopen'.
    rewrite (check_answer_graded _ _ _ _ _ _ _ Hmsg Htext Huser Hopen' Hletter Hcorrect).
    unfold graded_outcome. by rewrite Hnone. }
  split; [by apply Hone|].
  clear Hmsg Htext Huser Hletter Hcorrect Hexp Hnone.
  revert st Hopen. induction n as [|n IH]; intros st Hopen.
  { cbn. split; [done|lia]. }
  cbn [replicate run fold_left]. fold (run (step st (OnText upd)) (replicate n (OnText upd))).
  assert (step st (OnText upd)
          = mkState (user_sessions st)
              (<[user_id := spec_record (py_eq_str (normalize t) correct_answer)
                              (read user_id st)]> (user_scores st))) as Hstep.
  { unfold step. cbn [handle]. by rewrite Hone. }
  destruct (IH (step st (OnText upd))) as [Hs Ht]; [by rewrite Hstep|].
  split; [done|]. rewrite Ht. rewrite Hstep. unfold read at 1.
  cbn [user_scores]. rewrite lookup_insert_eq. cbn. lia.
Qed.





(** *** The texts that are graded *)

Lemma lstrip_decompose s : ∃ w, s = w +:+ lstrip s ∧ all_space w = true.
Proof.
  induction s as [|c s (w & Hs & Hw)]; [by exists EmptyString|].
  cbn [lstrip]. destruct (is_space c) eqn:Hc; [|by exists EmptyString].
  exists (String c w). rewrite string_app_cons, <- Hs. cbn. by rewrite Hc, Hw.
Qed.

Lemma rstrip_decompose s : ∃ w, s = rstrip s +:+ w ∧ all_space w = true.
Proof.
  induction s as [|c s (w & Hs & Hw)]; [by exists EmptyString|].
  cbn [rstrip]. destruct (rstrip s) as [|c' r] eqn:Hr.
  - destruct (is_space c) eqn:Hc.
    + exists (String c w). change (EmptyString +:+ ?x) with x in *.
      rewrite Hs at 1. cbn. by rewrite Hc, Hw.
    + exists w. rewrite string_app_cons. change (EmptyString +:+ ?x) with x in *.
      by rewrite Hs at 1.
  - exists w. rewrite string_app_cons. by rewrite Hs at 1.
Qed.

Lemma strip_decompose s :
  ∃ before after,
    s = before +:+ strip s +:+ after ∧ all_space before = true ∧ all_space after = true.
Proof.
  destruct (lstrip_decompose s) as (before & Hs & Hbefore).
  destruct (rstrip_decompose (lstrip s)) as (after & Hl & Hafter).
  exists before, after. unfold strip. by rewrite <- Hl, <- Hs.
Qed.





(** *** Configuration *)

(** X12. The process starts only when both secrets are set and not empty:
    a missing or empty TELEGRAM_TOKEN stops it first, whatever the other
    secret is, then a missing or empty GEMINI_API_KEY. *)
Theorem configure_fails_fast environ :
  (∀ telegram_token gemini_api_key,
     configure environ = Configured telegram_token gemini_api_key ↔
     environ !! "TELEGRAM_TOKEN" = Some telegram_token ∧ telegram_token ≠ EmptyString ∧
     environ !! "GEMINI_API_KEY" = Some gemini_api_key ∧ gemini_api_key ≠ EmptyString) ∧
  (configure environ = ValueError "Missing TELEGRAM_TOKEN" ↔
   environ !! "TELEGRAM_TOKEN" = None ∨ environ !! "TELEGRAM_TOKEN" = Some EmptyString) ∧
  (configure environ = ValueError "Missing GEMINI_API_KEY" ↔
   (∃ telegram_token,
      environ !! "TELEGRAM_TOKEN" = Some telegram_token ∧ telegram_token ≠ EmptyString) ∧
   (environ !! "GEMINI_API_KEY" = None ∨ environ !! "GEMINI_API_KEY" = Some EmptyString)).
Proof.
  unfold configure, getenv.
  destruct (environ !! "TELEGRAM_TOKEN") as [[|c1 t1]|];
    destruct (environ !! "GEMINI_API_KEY") as [[|c2 t2]|]; cbn;
    (split; [intros ? ?|split]); split;
    intros; destruct_and?; destruct_or?; repeat match goal with H : ∃ _, _ |- _ => destruct H end; destruct_and?;
    simplify_eq; eauto 6.
Qed.

(** *** What cleaning leaves *)

Lemma replace_step old new c s :
  String.prefix old (String c s) = false →
  replace old new (String c s) = String c (replace old new s).
Proof. intros Hno. unfold replace. cbn [replace_from]. by rewrite Hno. Qed.

Lemma replace_absent old new s :
  str_contains old s = false → replace old new s = s.
Proof.
  induction s as [|c s IH].
  - destruct old; [|done]. cbn. done.
  - cbn [str_contains]. intros [Hp Hs]%orb_false_elim.
    rewrite (replace_step _ _ _ _ Hp). by rewrite IH.
Qed.

Lemma prefix_fence s :
  String.prefix "```" s = true → ∃ s', s = "```" +:+ s'.
Proof.
  destruct s as [|c1 [|c2 [|c3 s']]]; cbn [String.prefix]; try done;
    repeat (destruct (ascii_dec _ _); try done).
  intros _. subst. by exists s'.
Qed.

Lemma prefix_tick c s :
  String.prefix "`" (String c s) = true ↔ c = backtick.
Proof.
  cbn [String.prefix]. destruct (ascii_dec "`" c) as [<-|Hne].
  - by rewrite prefix_nil.
  - split; [done|]. intros ->. done.
Qed.

Lemma prefix_cons c p x s :
  String.prefix (String c p) (String x s) = true ↔ c = x ∧ String.prefix p s = true.
Proof.
  cbn [String.prefix]. destruct (ascii_dec c x); [|split; [done|by intros [? _]]].
  by split; [|intros [_ ?]].
Qed.

(** the text without its [```] has no [```], and begins with one or two
    backticks only when the text does *)
Lemma replace_fence_none s :
  (String.prefix "`" (replace "```" EmptyString s) = true → String.prefix "`" s = true) ∧
  (String.prefix "``" (replace "```" EmptyString s) = true → String.prefix "``" s = true) ∧
  str_contains "```" (replace "```" EmptyString s) = false.
Proof.
  remember (String.length s) as n eqn:Hn. revert s Hn.
  induction n as [n IH] using lt_wf_ind. intros s ->.
  destruct (String.prefix "```" s) eqn:Hfence.
  - destruct (prefix_fence _ Hfence) as [s' ->].
    rewrite (replace_match backtick "``" EmptyString s' : replace "```" _ (_ +:+ _) = _).
    change (EmptyString +:+ ?x) with x.
    destruct (IH (String.length s')) with (s := s') as (_ & _ & Hnone);
      [|done|].
    { change (String.length s'
              < String.length (String backtick (String backtick (String backtick s')))).
      cbn [String.length]. lia. }
    split; [done|]. split; [done|]. exact Hnone.
  - destruct s as [|c s']; [done|].
    rewrite (replace_step _ _ _ _ Hfence).
    destruct (IH (String.length s')) with (s := s') as (H1 & H2 & Hnone);
      [cbn; lia|done|].
    split; [|split].
    + by rewrite !prefix_tick.
    + rewrite !prefix_cons. intros [<- Hr]. split; [done|].
      destruct (replace "```" EmptyString s') as [|x r] eqn:Hrep; [done|].
      apply prefix_tick in Hr as ->. apply H1. by apply prefix_tick.
    + cbn [str_contains]. rewrite Hnone, orb_false_r.
      apply not_true_is_false. rewrite prefix_cons. intros [<- Hr].
      assert (String.prefix "```" (String backtick s') = true) as Hyes.
      { apply prefix_cons. split; [done|]. by apply H2. }
      congruence.
Qed.

Lemma prefix_app_l p a b :
  String.prefix p a = true → String.prefix p (a +:+ b) = true.
Proof.
  revert a. induction p as [|c p IH]; intros a; [intros _; apply prefix_nil|].
  destruct a as [|x a]; [done|]. rewrite string_app_cons, !prefix_cons.
  intros [-> Hp]. split; [done|]. by apply IH.
Qed.

Lemma str_contains_app_l p a b :
  str_contains p a = true → str_contains p (a +:+ b) = true.
Proof.
  induction a as [|x a IH].
  - cbn [str_contains]. rewrite orb_false_r. destruct p; [|done].
    intros _. destruct b; reflexivity.
  - rewrite string_app_cons. cbn [str_contains].
    intros [Hp|Hs]%orb_true_iff; apply orb_true_iff.
    + left. rewrite <- string_app_cons. by apply prefix_app_l.
    + right. by apply IH.
Qed.

Lemma str_contains_app_r p a b :
  str_contains p b = true → str_contains p (a +:+ b) = true.
Proof.
  intros Hb. induction a as [|x a IH]; [done|].
  rewrite string_app_cons. cbn [str_contains]. rewrite IH. apply orb_true_r.
Qed.

Lemma str_contains_strip p s :
  str_contains p s = false → str_contains p (strip s) = false.
Proof.
  intros Hs. apply not_true_is_false. intros Hstrip.
  destruct (strip_decompose s) as (before & after & Heq & _ & _).
  rewrite Heq in Hs. rewrite str_contains_app_r in Hs; [done|].
  by apply str_contains_app_l.
Qed.

Lemma str_contains_longer p q s :
  str_contains (p +:+ q) s = true → str_contains p s = true.
Proof.
  assert (∀ x, String.prefix (p +:+ q) x = true → String.prefix p x = true) as Hp.
  { induction p as [|c p IH]; intros x; [intros _; apply prefix_nil|].
    destruct x as [|y x]; [done|]. rewrite string_app_cons, !prefix_cons.
    intros [-> Hx]. split; [done|]. by apply IH. }
  induction s as [|c s IH]; cbn [str_contains].
  - rewrite !orb_false_r. apply Hp.
  - intros [Hx|Hs]%orb_true_iff; apply orb_true_iff; [left; by apply Hp|right; by apply IH].
Qed.

(** X13. Whatever the response, the text handed to [json.loads] holds no
    triple backtick at all, with or without a tag, and has no whitespace
    around it; cleaning it once more changes nothing. *)
Theorem clean_leaves_no_fence text :
  str_contains "```" (clean text) = false ∧
  str_contains "```json" (clean text) = false ∧
  strip (clean text) = clean text ∧
  clean (clean text) = clean text.
Proof.
  assert (str_contains "```" (clean text) = false) as Hnone.
  { unfold clean. apply str_contains_strip. apply replace_fence_none. }
  assert (str_contains "```json" (clean text) = false) as Hjson.
  { apply not_true_is_false. intros Hc.
    apply (str_contains_longer "```" "json") in Hc. congruence. }
  assert (strip (clean text) = clean text) as Hstrip.
  { unfold clean. apply strip_idem. }
  split; [done|]. split; [done|]. split; [done|].
  unfold clean at 1. rewrite Hstrip.
  rewrite (replace_absent _ _ _ Hjson), (replace_absent _ _ _ Hnone). exact Hstrip.
Qed.

(** *** The calls of a handler *)

Lemma check_answer_calls upd st :
  (check_answer upd st).1.2 = [] ∨ ∃ reply, (check_answer upd st).1.2 = [ReplyText reply].
Proof.
  destruct (message upd) as [msg|] eqn:Hmsg;
    [|left; unfold check_answer; by rewrite Hmsg].
  destruct (effective_user upd) as [user_id|] eqn:Huser;
    [|left; unfold check_answer; by rewrite Hmsg, Huser].
  destruct (text msg) as [t|] eqn:Htext;
    [|left; unfold check_answer; by rewrite Hmsg, Huser, Htext].
  destruct (user_sessions st !! user_id) as [data|] eqn:Hopen;
    [|left; unfold check_answer; by rewrite Hmsg, Huser, Htext, Hopen].
  destruct (decide (normalize t ∈ letters)) as [Hletter|Hbad];
    [|right; exists format_reply; unfold check_answer;
      rewrite Hmsg, Huser, Htext, Hopen; by rewrite bool_decide_eq_false_2].
  destruct (py_getitem data "correct_answer") as [correct_answer|] eqn:Hcorrect.
  - rewrite (check_answer_graded _ _ _ _ _ _ _ Hmsg Htext Huser Hopen Hletter Hcorrect).
    unfold graded_outcome. destruct (py_getitem data "explanation" ≫= _); cbn; eauto.
  - left. unfold check_answer. rewrite Hmsg, Huser, Htext, Hopen, Hcorrect.
    by rewrite bool_decide_eq_true_2.
Qed.

(** X14. A trigger gets at most one reply, sent last.  The completion
    service is called only by [/problem] for a user without an open
    question, once, right after the typing action; [/start], a refused
    [/problem] and texts never call it. *)
Theorem calls_of_a_trigger st tr :
  let calls := (handle st tr).1.2 in
  (calls = [] ∨ (∃ reply, calls = [ReplyText reply]) ∨
   calls = [SendTyping; GenerateContent] ∨
   ∃ reply, calls = [SendTyping; GenerateContent; ReplyText reply]) ∧
  (GenerateContent ∈ calls →
   ∃ upd response user_id,
     tr = OnProblem upd response ∧ is_Some (message upd) ∧
     effective_user upd = Some user_id ∧ user_sessions st !! user_id = None).
Proof.
  cbv zeta. destruct tr as [upd|upd response|upd]; cbn [handle].
  - unfold start. destruct (message upd); cbn.
    + split; [right; left; eauto|]. intros Hin.
      apply elem_of_cons in Hin as [[=]|Hin]. by apply elem_of_nil in Hin.
    + split; [by left|]. intros Hin. by apply elem_of_nil in Hin.
  - unfold problem. destruct (message upd) as [msg|] eqn:Hmsg; cbn.
    2:{ split; [by left|]. intros Hin. by apply elem_of_nil in Hin. }
    destruct (effective_user upd) as [user_id|] eqn:Huser; cbn.
    2:{ split; [by left|]. intros Hin. by apply elem_of_nil in Hin. }
    case_bool_decide as Hopen; cbn.
    { split; [right; left; eauto|]. intros Hin.
      apply elem_of_cons in Hin as [[=]|Hin]. by apply elem_of_nil in Hin. }
    assert (∃ upd0 response0 user_id0,
              OnProblem upd response = OnProblem upd0 response0 ∧
              is_Some (message upd0) ∧ effective_user upd0 = Some user_id0 ∧
              user_sessions st !! user_id0 = None) as Hidle.
    { exists upd, response, user_id. rewrite Hmsg.
      split; [done|]. split; [eauto|]. split; [done|]. by apply eq_None_not_Some. }
    destruct (format_question _); cbn; (split; [|done]).
    + right; right; right. eauto.
    + right; right; by left.
  - destruct (check_answer_calls upd st) as [->|[reply ->]].
    + split; [by left|]. intros Hin. by apply elem_of_nil in Hin.
    + split; [right; left; eauto|]. intros Hin.
      apply elem_of_cons in Hin as [[=]|Hin]. by apply elem_of_nil in Hin.
Qed.

End Handlers.

(** * The theorems at concrete inputs *)

Lemma problem_refused_while_open_witness :
  user_sessions sample_open !! 7%Z = Some fallback_item ∧
  problem no_str (text_from 7 "again") None sample_open
  = (sample_open, [ReplyText conflict_reply], Returned).
Proof.
  split; [reflexivity|].
  exact (proj1 (problem_refused_while_open no_str (text_from 7 "again")
                  (mkMessage (Some "again")) 7 fallback_item sample_open None
                  eq_refl eq_refl eq_refl)).
Defined.

Lemma answer_while_idle_witness :
  user_sessions initial !! 7%Z = None ∧
  check_answer no_str (text_from 7 "B") initial = (initial, [], Returned).
Proof.
  split; [reflexivity|].
  exact (answer_while_idle no_str (text_from 7 "B") 7 initial eq_refl eq_refl).
Defined.

Lemma malformed_answer_changes_nothing_witness :
  (normalize "E" ∉ letters) ∧
  (check_answer no_str (text_from 7 "E") sample_open
   = (sample_open, [ReplyText format_reply], Returned) ∧
   run no_str sample_open (replicate 3 (OnText (text_from 7 "E"))) = sample_open).
Proof.
  assert (normalize "E" ∉ letters) as Hbad.
  { intros Hin. apply (bool_decide_pack _) in Hin. vm_compute in Hin. exact Hin. }
  split; [exact Hbad|].
  exact (malformed_answer_changes_nothing no_str (text_from 7 "E")
           (mkMessage (Some "E")) "E" 7 fallback_item sample_open 3
           eq_refl eq_refl eq_refl eq_refl Hbad).
Defined.


(** C1 as the specification has it fails: a response with the four keys is
    returned as it is, here with no choices and an answer that is no label. *)
Lemma generate_problem_returns_malformed :
  generate_problem (Some keys_only_response)
  = JObj [("question", JStr "q"); ("choices", JObj []);
          ("correct_answer", JStr "Z"); ("explanation", JStr "e")] ∧
  well_formed (generate_problem (Some keys_only_response)) = false ∧
  generate_problem (Some keys_only_response) ≠ fallback_item.
Proof. split; [|split]; [vm_compute; reflexivity..|vm_compute; discriminate]. Qed.

Lemma fallback_on_any_failure_witness :
  json_loads (clean "no json here") = None ∧
  generate_problem (Some "no json here") = fallback_item.
Proof.
  split; [reflexivity|].
  exact (proj1 (fallback_on_any_failure (Some "no json here")
                  (or_intror (ex_intro _ "no json here" (conj eq_refl (or_introl eq_refl)))))).
Defined.

(** C6 as the specification has it fails: the choices come in the order of
    the mapping, here B before A, and not in the order of the labels. *)
Lemma choices_not_in_label_order :
  well_formed (generate_problem (Some b_first_response)) = true ∧
  (problem no_str (text_from 7 "/problem") (Some b_first_response) initial).1.2
  = [SendTyping; GenerateContent;
     ReplyText (layout "2 + 2 = ?" [("B", "4"); ("A", "3"); ("C", "5"); ("D", "6")])] ∧
  spec_layout "2 + 2 = ?" [("B", "4"); ("A", "3"); ("C", "5"); ("D", "6")]
  = Some (layout "2 + 2 = ?" [("A", "3"); ("B", "4"); ("C", "5"); ("D", "6")]) ∧
  layout "2 + 2 = ?" [("B", "4"); ("A", "3"); ("C", "5"); ("D", "6")]
  ≠ layout "2 + 2 = ?" [("A", "3"); ("B", "4"); ("C", "5"); ("D", "6")].
Proof.
  split; [vm_compute; reflexivity|].
  split; [vm_compute; reflexivity|].
  split; [vm_compute; reflexivity|].
  vm_compute. discriminate.
Qed.

Lemma question_reply_layout_witness :
  well_formed (generate_problem None) = true ∧
  ∃ fields question choices,
    generate_problem None = JObj fields ∧
    dict_get "question" fields = Some (JStr question) ∧
    dict_get "choices" fields = Some (JObj (as_json choices)) ∧
    choices.*1 ≡ₚ letters ∧
    format_question no_str (JObj fields) = Some (layout question choices) ∧
    (problem no_str (text_from 7 "/problem") None initial).1.2
    = [SendTyping; GenerateContent; ReplyText (layout question choices)] ∧
    (∀ a b c d,
       choices = [("A", a); ("B", b); ("C", c); ("D", d)] →
       layout question choices
       = question +:+ nl +:+ nl
         +:+ "A) " +:+ a +:+ nl +:+ "B) " +:+ b +:+ nl
         +:+ "C) " +:+ c +:+ nl +:+ "D) " +:+ d +:+ nl
         +:+ nl +:+ "📝 Reply with A, B, C, or D." ∧
       spec_layout question choices = Some (layout question choices)).
Proof.
  split; [reflexivity|].
  exact (question_reply_layout no_str (text_from 7 "/problem")
           (mkMessage (Some "/problem")) 7 None initial
           eq_refl eq_refl eq_refl eq_refl).
Defined.



Lemma graded_answer_scoring_witness :
  normalize " b " ∈ letters ∧
  py_getitem fallback_item "correct_answer" = Some (JStr "B") ∧
  total (read 7 (step no_str sample_open (OnText (text_from 7 " b ")))) = 1%Z ∧
  correct (read 7 (step no_str sample_open (OnText (text_from 7 " b ")))) = 1%Z.
Proof.
  assert (normalize " b " ∈ letters) as Hletter.
  { apply (bool_decide_unpack _). vm_compute. exact I. }
  split; [exact Hletter|]. split; [reflexivity|].
  pose proof (proj1 (graded_answer_scoring no_str) (text_from 7 " b ")
                (mkMessage (Some " b ")) " b " 7%Z fallback_item (JStr "B") sample_open
                eq_refl eq_refl eq_refl eq_refl Hletter eq_refl) as H.
  cbv zeta in H. destruct H as (_ & Htotal & Hcorrect & _).
  split; [exact Htotal | exact Hcorrect].
Defined.

Lemma unnormalized_stored_answer_witness :
  normalize "b" ∈ letters ∧
  py_getitem lower_item "correct_answer" = Some (JStr "b") ∧
  ¬ upper_letter (JStr "b") ∧
  user_scores (check_answer no_str (text_from 7 "b") sample_lower).1.1 !! 7%Z
  = Some (mkScore 0 1).
Proof.
  assert (normalize "b" ∈ letters) as Hletter.
  { apply (bool_decide_unpack _). vm_compute. exact I. }
  assert (¬ upper_letter (JStr "b")) as Hlower.
  { intros (c & [= <-] & Hc). vm_compute in Hc. discriminate Hc. }
  split; [exact Hletter|]. split; [reflexivity|]. split; [exact Hlower|].
  exact (proj2 (proj2 (unnormalized_stored_answer no_str (text_from 7 "b")
                  (mkMessage (Some "b")) "b" 7%Z lower_item (JStr "b") sample_lower
                  eq_refl eq_refl eq_refl eq_refl Hletter eq_refl Hlower))).
Defined.

(** * Two runs *)

(** The scenario of the specification: a question, the right answer in lower
    case, and a new question. *)
Example scenario_right_answer :
  let asks := OnProblem (text_from 7 "/problem") None in
  let st1 := step no_str initial asks in
  handle no_str st1 (OnText (text_from 7 "b"))
  = (mkState ∅ {[ 7%Z := mkScore 1 1 ]},
     [ReplyText ("✅ Correct!" +:+ nl +:+ nl +:+ "Explanation:" +:+ nl
                 +:+ "2x + 3 = 11 → 2x = 8 → x = 4" +:+ nl +:+ nl
                 +:+ "📊 Your Score: 1/1")],
     Returned) ∧
  user_sessions (run no_str initial [asks; OnText (text_from 7 "b"); asks]) !! 7%Z
  = Some fallback_item.
Proof. split; vm_compute; reflexivity. Qed.

(** C4 at a stored value that is no object.  The key check is [in], which
    also holds of a JSON string that contains the four names: such a
    response is stored as the open question.  An answer A is then not
    scored: the handler raises at [data["correct_answer"]], no record is
    made, and the question stays open. *)
Lemma graded_answer_not_scored :
  let asks := OnProblem (text_from 7 "/problem") (Some keys_in_a_string) in
  let st := step no_str initial asks in
  generate_problem (Some keys_in_a_string)
  = JStr "question choices correct_answer explanation" ∧
  handle no_str initial asks
  = (mkState {[ 7%Z := JStr "question choices correct_answer explanation" ]} ∅,
     [SendTyping; GenerateContent], Raised) ∧
  normalize "A" ∈ letters ∧
  handle no_str st (OnText (text_from 7 "A")) = (st, [], Raised) ∧
  user_scores (step no_str st (OnText (text_from 7 "A"))) !! 7%Z = None ∧
  is_Some (user_sessions (step no_str st (OnText (text_from 7 "A"))) !! 7%Z).
Proof.
  cbv zeta. split; [vm_compute; reflexivity|]. split; [vm_compute; reflexivity|].
  split; [apply (bool_decide_unpack _); vm_compute; exact I|].
  split; [vm_compute; reflexivity|]. split; [vm_compute; reflexivity|].
  vm_compute. eauto.
Qed.

(** * The further theorems at concrete inputs *)

Lemma unanswerable_item_stays_witness :
  py_getitem (JStr "question choices correct_answer explanation") "correct_answer" = None ∧
  user_sessions
    (run no_str sample_stuck
       [OnText (text_from 7 "A"); OnProblem (text_from 7 "/problem") None;
        OnText (text_from 8 "B"); OnText (text_from 7 "b")]) !! 7%Z
  = Some (JStr "question choices correct_answer explanation") ∧
  user_scores
    (run no_str sample_stuck
       [OnText (text_from 7 "A"); OnProblem (text_from 7 "/problem") None;
        OnText (text_from 8 "B"); OnText (text_from 7 "b")]) !! 7%Z
  = None.
Proof.
  split; [reflexivity|].
  exact (unanswerable_item_stays no_str sample_stuck
           [OnText (text_from 7 "A"); OnProblem (text_from 7 "/problem") None;
            OnText (text_from 8 "B"); OnText (text_from 7 "b")]
           7%Z (JStr "question choices correct_answer explanation") eq_refl eq_refl).
Defined.

Lemma stored_values_passed_key_check_witness :
  user_sessions
    (run no_str initial [OnProblem (text_from 7 "/problem") (Some keys_only_response)]) !! 7%Z
  = Some (JObj [("question", JStr "q"); ("choices", JObj []);
                ("correct_answer", JStr "Z"); ("explanation", JStr "e")]) ∧
  ∀ key, key ∈ required_keys →
         is_Some (dict_get key [("question", JStr "q"); ("choices", JObj []);
                                ("correct_answer", JStr "Z"); ("explanation", JStr "e")]).
Proof.
  split; [vm_compute; reflexivity|].
  exact (proj2 (stored_values_passed_key_check no_str
                  [OnProblem (text_from 7 "/problem") (Some keys_only_response)] 7%Z
                  (JObj [("question", JStr "q"); ("choices", JObj []);
                         ("correct_answer", JStr "Z"); ("explanation", JStr "e")])
                  eq_refl)).
Defined.

Lemma problem_when_idle_witness :
  user_sessions initial !! 7%Z = None ∧
  problem no_str (text_from 7 "/problem") (Some keys_in_a_string) initial
  = (mkState (<[7%Z := generate_problem (Some keys_in_a_string)]> ∅) ∅,
     [SendTyping; GenerateContent], Raised).
Proof.
  split; [reflexivity|].
  refine (proj2 (proj2 (problem_when_idle no_str (text_from 7 "/problem")
                          (mkMessage (Some "/problem")) 7%Z (Some keys_in_a_string) initial
                          eq_refl eq_refl eq_refl)) _).
  intros (fields & choices & Hdata & _). vm_compute in Hdata. discriminate Hdata.
Defined.

Lemma unexplained_item_counts_every_answer_witness :
  explained unexplained_item = false ∧
  user_sessions (run no_str sample_unexplained (replicate 3 (OnText (text_from 7 "b")))) !! 7%Z
  = Some unexplained_item ∧
  total (read 7 (run no_str sample_unexplained (replicate 3 (OnText (text_from 7 "b")))))
  = 3%Z.
Proof.
  assert (normalize "b" ∈ letters) as Hletter.
  { apply (bool_decide_unpack _). vm_compute. exact I. }
  split; [reflexivity|].
  exact (proj2 (unexplained_item_counts_every_answer no_str (text_from 7 "b")
                  (mkMessage (Some "b")) "b" 7%Z unexplained_item (JStr "B")
                  sample_unexplained 3
                  eq_refl eq_refl eq_refl eq_refl Hletter eq_refl eq_refl)).
Defined.


